(** * pm_daemon: event-driven LED daemon

    A shallow embedding of [recalbox/pm_daemon.py] and the properties its
    specification states about it.

    Conventions of the embedding.
    - Python [int] is [Z]; Python [float] is a primitive binary64 [float];
      [bytes] is [list byte].
    - Python [str] is [string]; a character stands for the code point of the
      same number, so the strings of the model are those whose code points
      are below 256.
    - A value decoded from JSON is a [json]; a [dict] is a [gmap string json].
    - A function that may raise returns a [result]; code that writes to the
      serial port or to a global runs in the monad [M] over [daemon].
    - What the process reads from outside (files, the monotonic clock, libm's
      [sin]) is a field of [env]. *)

From Stdlib Require Import ZArith NArith String Ascii List Bool Lia Floats.
From Stdlib Require Import Strings.Byte.
From Stdlib Require Import Sorting.Sorted Sorting.Permutation.
From Stdlib Require OrderedTypeEx.
From stdpp Require Import gmap strings list fin_maps.
Import ListNotations.

#[local] Set Warnings "-register-all,-inexact-float".

Local Open Scope string_scope.
Local Open Scope list_scope.
Local Open Scope Z_scope.

(** ** Outcomes of a call *)

Inductive exn : Set :=
| TypeError | ValueError | KeyError | IndexError | AttributeError
| OverflowError | ZeroDivisionError.

(** [OutOfFuel] is not a Python outcome: it is what the model answers when a
    loop driven by the clock has not ended within the given number of turns. *)
Inductive result (A : Type) : Type :=
| Ok (a : A)
| Raise (e : exn)
| OutOfFuel.

Arguments Ok {A} a.
Arguments Raise {A} e.
Arguments OutOfFuel {A}.

Definition rbind {A B} (r : result A) (k : A -> result B) : result B :=
  match r with
  | Ok a => k a
  | Raise e => Raise e
  | OutOfFuel => OutOfFuel
  end.

Declare Scope result_scope.
Delimit Scope result_scope with res.
Notation "x <- r ;; k" := (rbind r (fun x => k))
  (at level 100, r at next level, right associativity) : result_scope.

Fixpoint mapR {A B} (f : A -> result B) (l : list A) : result (list B) :=
  match l with
  | [] => Ok []
  | a :: l' => (b <- f a ;; bs <- mapR f l' ;; Ok (b :: bs))%res
  end.

(** ** Python strings *)

Module PyStr.

Definition ord (c : ascii) : Z := Z.of_N (N_of_ascii c).

(** [str.isspace] on one character, for code points below 256. *)
Definition isspace (c : ascii) : bool :=
  let n := ord c in
  ((9 <=? n) && (n <=? 13)) || ((28 <=? n) && (n <=? 32))
  || (n =? 133) || (n =? 160).

Fixpoint lstrip (s : string) : string :=
  match s with
  | String c s' => if isspace c then lstrip s' else s
  | EmptyString => EmptyString
  end.

Fixpoint rstrip (s : string) : string :=
  match s with
  | EmptyString => EmptyString
  | String c s' =>
      match rstrip s' with
      | EmptyString => if isspace c then EmptyString else String c EmptyString
      | r => String c r
      end
  end.

(** [s.strip()] *)
Definition strip (s : string) : string := rstrip (lstrip s).

Definition lower_char (c : ascii) : ascii :=
  let n := ord c in
  if ((65 <=? n) && (n <=? 90))
     || ((192 <=? n) && (n <=? 222) && negb (n =? 215))
  then ascii_of_N (Z.to_N (n + 32)) else c.

(** [s.lower()] *)
Fixpoint lower (s : string) : string :=
  match s with
  | EmptyString => EmptyString
  | String c s' => String (lower_char c) (lower s')
  end.

(** [sub in s] for two strings. *)
Fixpoint contains (sub s : string) : bool :=
  String.prefix sub s
  || match s with
     | EmptyString => false
     | String _ s' => contains sub s'
     end.

(** [s.split(sep, 1)] for a separator of one character: [None] when [sep]
    does not occur in [s] (the list returned has one element then), else the
    text before the first [sep] and the text after it. *)
Fixpoint split1 (sep : ascii) (s : string) : option (string * string) :=
  match s with
  | EmptyString => None
  | String c s' =>
      if Ascii.eqb c sep then Some (EmptyString, s')
      else match split1 sep s' with
           | Some (a, b) => Some (String c a, b)
           | None => None
           end
  end.

(** [s.rfind(c)] for one character: the last index of [c], or -1. *)
Fixpoint rfind_from (c : ascii) (s : string) (i : Z) (found : Z) : Z :=
  match s with
  | EmptyString => found
  | String d s' => rfind_from c s' (i + 1) (if Ascii.eqb d c then i else found)
  end.

Definition rfind (c : ascii) (s : string) : Z := rfind_from c s 0 (-1).

(** [s[i:j]] for [0 <= i]. *)
Definition slice (s : string) (i j : Z) : string :=
  String.substring (Z.to_nat i) (Z.to_nat (j - i)) s.

(** [s[i:]] for [0 <= i]. *)
Definition drop (s : string) (i : Z) : string :=
  String.substring (Z.to_nat i) (String.length s - Z.to_nat i) s.

Fixpoint all_chars (p : ascii -> bool) (s : string) : bool :=
  match s with
  | EmptyString => true
  | String c s' => p c && all_chars p s'
  end.

(** *** [int(s, base)] on a string, for [base] 10 and 16

    Blanks around the literal, one sign, for base 16 an optional [0x] (and
    one underscore after it), then digits with single underscores between
    them. The limit CPython 3.11 puts on the number of decimal digits is a
    resource limit of the interpreter and not part of the model. *)

Definition digit_value (c : ascii) : option Z :=
  let n := ord c in
  if (48 <=? n) && (n <=? 57) then Some (n - 48)
  else if (97 <=? n) && (n <=? 122) then Some (n - 87)
  else if (65 <=? n) && (n <=? 90) then Some (n - 55)
  else None.

Definition digit (base : Z) (c : ascii) : option Z :=
  match digit_value c with
  | Some d => if d <? base then Some d else None
  | None => None
  end.

(** The blanks [int] skips: the C blanks, and the two blanks above 127 that
    the conversion to ASCII turns into a space. *)
Definition int_blank (c : ascii) : bool :=
  let n := ord c in
  ((9 <=? n) && (n <=? 13)) || (n =? 32) || (n =? 133) || (n =? 160).

Fixpoint skip_blanks (s : string) : string :=
  match s with
  | String c s' => if int_blank c then skip_blanks s' else s
  | EmptyString => EmptyString
  end.

(** The digits after the first one: the value read and the rest of the
    text, or [None] at an underscore that no digit follows. *)
Fixpoint digits_tail (base acc : Z) (s : string) : option (Z * string) :=
  match s with
  | EmptyString => Some (acc, EmptyString)
  | String c s' =>
      if Ascii.eqb c "_" then
        match s' with
        | String c' s'' =>
            match digit base c' with
            | Some d => digits_tail base (acc * base + d) s''
            | None => None
            end
        | EmptyString => None
        end
      else
        match digit base c with
        | Some d => digits_tail base (acc * base + d) s'
        | None => Some (acc, s)
        end
  end.

(** The sign of the literal, and the text after it. *)
Definition split_sign (s : string) : bool * string :=
  match s with
  | String c r =>
      if Ascii.eqb c "+" then (false, r)
      else if Ascii.eqb c "-" then (true, r)
      else (false, s)
  | EmptyString => (false, s)
  end.

Definition skip_prefix (base : Z) (s : string) : string :=
  match s with
  | String c (String x r) =>
      if (base =? 16) && Ascii.eqb c "0" && (Ascii.eqb x "x" || Ascii.eqb x "X")
      then match r with
           | String u r' => if Ascii.eqb u "_" then r' else r
           | EmptyString => r
           end
      else s
  | _ => s
  end.

Definition int_of_string (base : Z) (s : string) : option Z :=
  let '(neg, s) := split_sign (skip_blanks s) in
  match skip_prefix base s with
  | EmptyString => None
  | String c r =>
      match digit base c with
      | None => None
      | Some d =>
          match digits_tail base d r with
          | None => None
          | Some (v, rest) =>
              if all_chars int_blank rest
              then Some (if neg then - v else v) else None
          end
      end
  end.

(** *** [os.path.basename] and [os.path.splitext] (posixpath) *)

Definition basename (p : string) : string := drop p (rfind "/" p + 1).

(** The root [os.path.splitext(p)[0]]: the extension starts at the last dot,
    unless that dot is before the last slash or only dots stand between the
    slash and it. *)
Definition splitext_root (p : string) : string :=
  let sepIndex := rfind "/" p in
  let dotIndex := rfind "." p in
  if (dotIndex >? sepIndex)
     && negb (all_chars (fun c => Ascii.eqb c ".") (slice p (sepIndex + 1) dotIndex))
  then slice p 0 dotIndex else p.

End PyStr.

(** ** Python floats and the conversions between [int] and [float] *)

Module PyFloat.

(** [float(z)], also the conversion Python applies to the [int] operand of
    an arithmetic operation with a [float]: round to nearest even, and
    [OverflowError] beyond the largest float. *)
Definition of_int (z : Z) : result float :=
  let f := SF2Prim (binary_normalize prec emax z 0 false) in
  if PrimFloat.is_infinity f then Raise OverflowError else Ok f.

(** [int(f)]: truncation towards zero. *)
Definition to_int (f : float) : result Z :=
  match Prim2SF f with
  | S754_zero _ => Ok 0
  | S754_infinity _ => Raise OverflowError
  | S754_nan => Raise ValueError
  | S754_finite s m e =>
      let v := if 0 <=? e then Z.pos m * 2 ^ e else Z.pos m / 2 ^ (- e) in
      Ok (if s then - v else v)
  end.

(** [a / b] on two ints. The quotient of the two conversions is the
    correctly rounded quotient as long as both ints are floats exactly
    (below 2^53 in absolute value), which holds at every call of the
    program. *)
Definition truediv (a b : Z) : result float :=
  if b =? 0 then Raise ZeroDivisionError
  else (fa <- of_int a ;; fb <- of_int b ;; Ok (fa / fb)%float)%res.

End PyFloat.

(** ** Values decoded from JSON *)

Inductive json : Type :=
| JNull
| JBool (b : bool)
| JInt (n : Z)
| JFloat (f : float)
| JStr (s : string)
| JList (l : list json)
| JDict (d : gmap string json).

Module Py.

(** Truth value of a value, as [if v], [v and ...], [v or ...] test it. *)
Definition truthy (v : json) : bool :=
  match v with
  | JNull => false
  | JBool b => b
  | JInt n => negb (n =? 0)
  | JFloat f => negb (f =? 0)%float
  | JStr s => negb (Nat.eqb (String.length s) 0)
  | JList l => negb (Nat.eqb (List.length l) 0)
  | JDict d => negb (Nat.eqb (size d) 0)
  end.

(** [v.get(k, dflt)]: only a dict has the method. *)
Definition get (v : json) (k : string) (dflt : json) : result json :=
  match v with
  | JDict d => Ok (default dflt (d !! k))
  | _ => Raise AttributeError
  end.

Definition is_str (k : string) (v : json) : bool :=
  match v with
  | JStr s => String.eqb s k
  | _ => false
  end.

(** [k in v] for a string [k]: a key of a dict, an element of a list, a
    substring of a string; the other values are not containers. *)
Definition contains (k : string) (v : json) : result bool :=
  match v with
  | JDict d => Ok (match d !! k with Some _ => true | None => false end)
  | JList l => Ok (existsb (is_str k) l)
  | JStr s => Ok (PyStr.contains k s)
  | _ => Raise TypeError
  end.

(** [v[k]] for a string [k]. *)
Definition getitem (v : json) (k : string) : result json :=
  match v with
  | JDict d =>
      match d !! k with
      | Some x => Ok x
      | None => Raise KeyError
      end
  | _ => Raise TypeError
  end.

(** [len(v)] *)
Definition len (v : json) : result nat :=
  match v with
  | JStr s => Ok (String.length s)
  | JList l => Ok (List.length l)
  | JDict d => Ok (size d)
  | _ => Raise TypeError
  end.

(** [v[i]] for an index [0 <= i < len(v)]: an element of a list, a
    character of a string; the keys of a dict decoded from JSON are strings,
    so no integer is one of them. *)
Definition getindex (v : json) (i : nat) : result json :=
  match v with
  | JList l =>
      match l !! i with
      | Some x => Ok x
      | None => Raise IndexError
      end
  | JStr s =>
      match String.get i s with
      | Some c => Ok (JStr (String c EmptyString))
      | None => Raise IndexError
      end
  | JDict _ => Raise KeyError
  | _ => Raise TypeError
  end.

(** [int(v)] *)
Definition int (v : json) : result Z :=
  match v with
  | JInt n => Ok n
  | JBool b => Ok (if b then 1 else 0)
  | JFloat f => PyFloat.to_int f
  | JStr s =>
      match PyStr.int_of_string 10 s with
      | Some n => Ok n
      | None => Raise ValueError
      end
  | JNull | JList _ | JDict _ => Raise TypeError
  end.

(** [v.lower()]: only a string has the method. *)
Definition lower (v : json) : result string :=
  match v with
  | JStr s => Ok (PyStr.lower s)
  | _ => Raise AttributeError
  end.

(** [a or b], with [b] evaluated only when [a] is false. *)
Definition or_else (a : json) (b : result json) : result json :=
  if truthy a then Ok a else b.

(** [k or ""] for a key that is a string or [None]. *)
Definition key_or_empty (k : option string) : string := default EmptyString k.

End Py.

(** ** Configuration constants of the daemon *)

Definition NUM_LEDS : nat := 7.
Definition ORDER : list nat := seq 0 NUM_LEDS.
Definition BRIGHT_LIMIT : Z := 170.
Definition FPS : Z := 60.
Definition HEADER : list byte := list_byte_of_string "multiverse:data".

(** A colour is the tuple [(b, g, r, br)]; a frame is a list of colours. *)
Abbreviation color := (Z * Z * Z * Z)%type (only parsing).
Abbreviation frame := (list (Z * Z * Z * Z)) (only parsing).

Definition brightness (c : color) : Z := let '(_, _, _, br) := c in br.

(** [_clamp(x)] with its default bounds [lo=0], [hi=255]. *)
Definition _clamp (x : Z) : Z :=
  if x <? 0 then 0 else if x >? 255 then 255 else x.

(** [lerp(a, b, t)] as [fade_all] calls it: two ints and a float. *)
Definition lerp (a b : Z) (t : float) : result float :=
  (d <- PyFloat.of_int (b - a) ;;
   fa <- PyFloat.of_int a ;;
   Ok (fa + d * t)%float)%res.

(** ** Frame codec *)

(** [bytes(xs)]: every element must be in [range(256)]. *)
Definition py_bytes (xs : list Z) : result (list byte) :=
  mapR (fun x =>
          if (0 <=? x) && (x <? 256) then
            match Byte.of_N (Z.to_N x) with
            | Some b => Ok b
            | None => Raise ValueError
            end
          else Raise ValueError) xs.

Definition pack_colors (cols : frame) : result (list byte) :=
  (chunks <- mapR (fun c : color =>
                     let '(b, g, r, br) := c in
                     py_bytes [_clamp b; _clamp g; _clamp r; _clamp br]) cols ;;
   Ok (HEADER ++ concat chunks))%res.

(** The list [mapped] of [send_colors]. *)
Definition mapped (cols : frame) : frame :=
  map (fun src => match cols !! src with
                  | Some c => c
                  | None => (0, 0, 0, 0)
                  end) ORDER.

Definition all_off : frame := repeat (0, 0, 0, 0) NUM_LEDS.

Definition solid (b g r br : Z) : frame :=
  repeat (b, g, r, _clamp (Z.min br BRIGHT_LIMIT)) NUM_LEDS.

(** ** Layouts and colours from the configuration

    The functions of this part read the global [_cfg] and change nothing;
    here [_cfg] is their first argument. *)

(** One turn of the loop of [cols_from_layout]: the colour of [item]. *)
Definition color_of_item (item : json) : result color :=
  match item with
  | JDict _ =>
      (r <- (v <- Py.get item "r" (JInt 0) ;; Py.int v) ;;
       g <- (v <- Py.get item "g" (JInt 0) ;; Py.int v) ;;
       b <- (v <- Py.get item "b" (JInt 0) ;; Py.int v) ;;
       br <- (v <- Py.get item "br" (JInt 0) ;; Py.int v) ;;
       Ok (b, g, r, _clamp (Z.min br BRIGHT_LIMIT)))%res
  | JStr item =>
      let s := PyStr.strip item in
      let '(s, br) :=
        match PyStr.split1 ":" s with
        | Some (s, brs) =>
            (s, match PyStr.int_of_string 10 brs with
                | Some n => n
                | None => 64
                end)
        | None => (s, 64)
        end in
      if String.prefix "#" s && Nat.eqb (String.length s) 7 then
        match PyStr.int_of_string 16 (PyStr.slice s 1 3) with
        | None => Raise ValueError
        | Some r =>
            match PyStr.int_of_string 16 (PyStr.slice s 3 5) with
            | None => Raise ValueError
            | Some g =>
                match PyStr.int_of_string 16 (PyStr.slice s 5 7) with
                | None => Raise ValueError
                | Some b => Ok (b, g, r, _clamp (Z.min br BRIGHT_LIMIT))
                end
            end
        end
      else Ok (0, 0, 0, 0)
  | _ => Ok (0, 0, 0, 0)
  end.

Definition cols_from_layout (layout : json) : result frame :=
  (n <- Py.len layout ;;
   cols <- mapR (fun i => item <- Py.getindex layout i ;; color_of_item item)
                (seq 0 (Nat.min NUM_LEDS n)) ;;
   Ok (cols ++ repeat (0, 0, 0, 0) (NUM_LEDS - List.length cols)))%res.

(** [a and b] for a value [a] and a test [b] evaluated only when [a] is
    true; used where the result is itself tested. *)
Definition and_then (a : json) (b : result bool) : result bool :=
  if Py.truthy a then b else Ok false.

Definition lookup_start_layout (_cfg : json) (system_key rom_key : option string)
  : result (option frame) :=
  (syscfg <- Py.get _cfg (Py.key_or_empty system_key) (JDict ∅) ;;
   has_ro <- and_then syscfg (Py.contains "rom_overrides" syscfg) ;;
   from_rom <-
     (if has_ro : bool then
        overrides <- Py.getitem syscfg "rom_overrides" ;;
        ro <- Py.get overrides (Py.key_or_empty rom_key) JNull ;;
        has_sl <- and_then ro (Py.contains "start_layout" ro) ;;
        if has_sl : bool then
          layout <- Py.getitem ro "start_layout" ;;
          cols <- cols_from_layout layout ;;
          Ok (Some cols)
        else Ok None
      else Ok None) ;;
   match from_rom with
   | Some cols => Ok (Some cols)
   | None =>
       has_sl <- and_then syscfg (Py.contains "start_layout" syscfg) ;;
       if has_sl : bool then
         layout <- Py.getitem syscfg "start_layout" ;;
         cols <- cols_from_layout layout ;;
         Ok (Some cols)
       else Ok None
   end)%res.

(** The colour read from the dict [c] by [system_accent] and
    [default_menu_color]. *)
Definition color_of_dict (c : json) : result color :=
  (b <- (v <- Py.get c "b" (JInt 0) ;; Py.int v) ;;
   g <- (v <- Py.get c "g" (JInt 0) ;; Py.int v) ;;
   r <- (v <- Py.get c "r" (JInt 0) ;; Py.int v) ;;
   br <- (v <- Py.get c "br" (JInt 24) ;; Py.int v) ;;
   Ok (b, g, r, _clamp (Z.min br BRIGHT_LIMIT)))%res.

Definition system_accent (_cfg : json) (system_key : option string)
  : result (option color) :=
  (syscfg <- Py.get _cfg (Py.key_or_empty system_key) (JDict ∅) ;;
   c <- Py.get syscfg "accent" JNull ;;
   match c with
   | JDict _ => col <- color_of_dict c ;; Ok (Some col)
   | _ => Ok None
   end)%res.

Definition default_menu_color (_cfg : json) : result color :=
  (d <- Py.get _cfg "defaults" (JDict ∅) ;;
   c <- Py.get d "menu_color" JNull ;;
   match c with
   | JDict _ => color_of_dict c
   | _ => Ok (0, 32, 64, 28)
   end)%res.

Definition default_attract_mode (_cfg : json) : result string :=
  (d <- Py.get _cfg "defaults" (JDict ∅) ;;
   a <- Py.get d "attract" JNull ;;
   v <- Py.or_else a (Ok (JStr "breath")) ;;
   Py.lower v)%res.

(** ** The daemon: what it reads from outside, and its state *)

(** What a run reads from outside the process. *)
Record env : Type := {
  (** [json.load] of the file [SYSTEMS_JSON]; [None] when opening or
      decoding the file raises. *)
  systems_json : option json;
  (** The lines of the file [ES_STATE] read before its end or an error (no
      line when the file cannot be opened). *)
  es_state : list string;
  (** The successive readings of [time.monotonic()]. *)
  monotonic : nat -> float;
  (** [math.sin]. *)
  sin : float -> float
}.

(** An idle generator that has been created and not yet advanced. *)
Inductive idle_gen : Type :=
| idle_menu (accent : option color)
| idle_attract (mode : string).

Record daemon : Type := {
  (** the global [_cfg] *)
  _cfg : json;
  (** every [ser.write] so far, oldest first *)
  written : list (list byte);
  (** how many times the clock has been read *)
  clock_reads : nat;
  (** the locals [current_idle] and [last_idle] of [main] *)
  current_idle : idle_gen;
  last_idle : float
}.

Definition set_cfg (c : json) (s : daemon) : daemon :=
  {| _cfg := c; written := written s; clock_reads := clock_reads s;
     current_idle := current_idle s; last_idle := last_idle s |}.

Definition add_written (bs : list byte) (s : daemon) : daemon :=
  {| _cfg := _cfg s; written := written s ++ [bs];
     clock_reads := clock_reads s;
     current_idle := current_idle s; last_idle := last_idle s |}.

Definition tick_clock (s : daemon) : daemon :=
  {| _cfg := _cfg s; written := written s;
     clock_reads := S (clock_reads s);
     current_idle := current_idle s; last_idle := last_idle s |}.

Definition set_current_idle (g : idle_gen) (s : daemon) : daemon :=
  {| _cfg := _cfg s; written := written s; clock_reads := clock_reads s;
     current_idle := g; last_idle := last_idle s |}.

Definition set_last_idle (t : float) (s : daemon) : daemon :=
  {| _cfg := _cfg s; written := written s; clock_reads := clock_reads s;
     current_idle := current_idle s; last_idle := t |}.

(** A computation on the daemon: its outcome and the state it leaves. What
    was written before an exception stays written. *)
Definition M (A : Type) : Type := daemon -> result A * daemon.

Definition ret {A} (a : A) : M A := fun s => (Ok a, s).

Definition bind {A B} (m : M A) (k : A -> M B) : M B :=
  fun s =>
    match m s with
    | (Ok a, s') => k a s'
    | (Raise e, s') => (Raise e, s')
    | (OutOfFuel, s') => (OutOfFuel, s')
    end.

Definition liftR {A} (r : result A) : M A := fun s => (r, s).

(** A function of the configuration, applied to the global [_cfg]. *)
Definition with_cfg {A} (f : json -> result A) : M A := fun s => (f (_cfg s), s).

Definition modify (f : daemon -> daemon) : M unit := fun s => (Ok tt, f s).

Declare Scope daemon_scope.
Delimit Scope daemon_scope with M.
Notation "x <- m ;; k" := (bind m (fun x => k))
  (at level 100, m at next level, right associativity) : daemon_scope.
Notation "m ;;; k" := (bind m (fun _ => k))
  (at level 100, right associativity) : daemon_scope.

(** [time.monotonic()] *)
Definition read_clock (E : env) : M float :=
  fun s => (Ok (monotonic E (clock_reads s)), tick_clock s).

(** [send_colors(ser, cols)]; the port takes every write. *)
Definition send_colors (cols : frame) : M unit :=
  (bs <- liftR (pack_colors (mapped cols)) ;;
   modify (add_written bs))%M.

(** ** Reading the launcher state and the configuration *)

Definition read_es_state (E : env) : gmap string string :=
  foldl (fun out line =>
           if PyStr.contains "=" line then
             match PyStr.split1 "=" (PyStr.strip line) with
             | Some (k, v) => <[PyStr.strip k := PyStr.strip v]> out
             | None => out
             end
           else out) ∅ (es_state E).

(** [_cfg.keys()] *)
Definition keys (v : json) : result (list string) :=
  match v with
  | JDict d => Ok (map fst (map_to_list d))
  | _ => Raise AttributeError
  end.

(** [load_config()]: the assignment of the decoded value, the log line that
    lists its keys, and the handler that catches whatever these raise. *)
Definition load_config (E : env) : M unit :=
  fun s =>
    match systems_json E with
    | Some v =>
        match keys v with
        | Ok _ => (Ok tt, set_cfg v s)
        | _ => (Ok tt, set_cfg (JDict ∅) s)
        end
    | None => (Ok tt, set_cfg (JDict ∅) s)
    end.

(** [a or b] on the lookups of the launcher state: strings or [None]. *)
Definition str_or (a : option string) (b : string) : string :=
  match a with
  | Some (String c s) => String c s
  | _ => b
  end.

Definition get_system_key (E : env) (evt : json) : result string :=
  (v <- Py.get evt "system" JNull ;;
   v <- Py.or_else v (Ok (JStr "")) ;;
   sysid <- Py.lower v ;;
   if negb (Nat.eqb (String.length sysid) 0) then Ok sysid
   else
     let st := read_es_state E in
     Ok (PyStr.lower (str_or (st !! "SystemId") (str_or (st !! "System") ""))))%res.

Definition get_rom_key (E : env) (evt : json) : result string :=
  (rom <- Py.get evt "rom" JNull ;;
   rp <- Py.or_else rom
           (rompath <- Py.get evt "rompath" JNull ;;
            Py.or_else rompath (Ok (JStr ""))) ;;
   let rp := if Py.truthy rp then rp
             else JStr (default "" (read_es_state E !! "RomPath")) in
   match rp with
   | JStr rp => Ok (PyStr.splitext_root (PyStr.basename rp))
   | _ => Raise TypeError
   end)%res.

(** ** Frames of the animations

    A generator of frames is the list of what its successive [next] calls
    give: a frame, or the exception raised while computing it. The pauses
    ([time.sleep]) between frames change no value of the model, so the
    parameters that only set a pause ([step_ms]) are left out. *)

Abbreviation generator := (list (result (list (Z * Z * Z * Z)))) (only parsing).

(** [math.sin(x)], which refuses an infinite argument. *)
Definition py_sin (E : env) (x : float) : result float :=
  if PrimFloat.is_infinity x then Raise ValueError else Ok (sin E x).

Definition breath_frame (E : env) (t : float) (color : color)
    (speed minf maxf : float) : result frame :=
  let '(bb, bg, br, bbr) := color in
  (sn <- py_sin E (t * speed)%float ;;
   let f := ((sn + 1.0) / 2.0)%float in
   let f := (minf + (maxf - minf) * f)%float in
   x <- PyFloat.of_int bbr ;;
   lvl <- PyFloat.to_int (x * f)%float ;;
   Ok (repeat (bb, bg, br, _clamp lvl) NUM_LEDS))%res.

Definition wipe_frames (color : color) : generator :=
  map (fun i : nat =>
         Ok (foldl (fun cols k => <[k := color]> cols) all_off (seq 0 (i + 1))))
      (seq 0 NUM_LEDS).

(** [range(n)] *)
Definition range (n : Z) : list Z := map Z.of_nat (seq 0 (Z.to_nat n)).

Definition fade_all (from_lvl to_lvl ms_total : Z) : generator :=
  match (q <- PyFloat.truediv ms_total 20 ;;
         n <- PyFloat.to_int q ;;
         Ok (Z.max 1 n))%res with
  | Ok steps =>
      map (fun s =>
             (t <- PyFloat.truediv s steps ;;
              x <- lerp from_lvl to_lvl t ;;
              lvl <- PyFloat.to_int x ;;
              Ok (solid 0 0 0 (_clamp lvl)))%res)
          (range (steps + 1))
  | Raise e => [Raise e]
  | OutOfFuel => [OutOfFuel]
  end.

(** [for cols in g: send_colors(ser, cols)] *)
Fixpoint send_each (g : generator) : M unit :=
  match g with
  | [] => ret tt
  | r :: g' => (cols <- liftR r ;; send_colors cols ;;; send_each g')%M
  end.

(** [for _ in range(n): body] *)
Fixpoint repeat_M (n : nat) (body : M unit) : M unit :=
  match n with
  | O => ret tt
  | S n' => (body ;;; repeat_M n' body)%M
  end.

(** ** Event animations *)

(** [base = accent if accent else default_menu_color()], the first line of
    [anim_menu_pulse] and of the body of [idle_menu]. *)
Definition base_color (accent : option color) : M color :=
  match accent with
  | Some a => ret a
  | None => with_cfg default_menu_color
  end.

(** The [while] loop of [anim_menu_pulse], for at most [fuel] turns. *)
Fixpoint pulse_loop (fuel : nat) (E : env) (base : color) (t0 seconds : float)
  : M unit :=
  match fuel with
  | O => liftR OutOfFuel
  | S fuel' =>
      (now <- read_clock E ;;
       if (now - t0 <? seconds)%float then
         t <- read_clock E ;;
         cols <- liftR (breath_frame E t base 1.0 0.3 0.9) ;;
         send_colors cols ;;;
         pulse_loop fuel' E base t0 seconds
       else ret tt)%M
  end.

Definition anim_menu_pulse (fuel : nat) (E : env) (accent : option color)
    (seconds : float) : M unit :=
  (base <- base_color accent ;;
   t0 <- read_clock E ;;
   pulse_loop fuel E base t0 seconds)%M.

Definition anim_game_start (system_key rom_key : option string) : M unit :=
  (layout <- with_cfg (fun c => lookup_start_layout c system_key rom_key) ;;
   match layout with
   | Some (c :: cols) => send_colors (c :: cols)
   | _ =>
       accent <- with_cfg (fun c => system_accent c system_key) ;;
       let accent := default (0, 64, 0, BRIGHT_LIMIT) accent in
       send_each (wipe_frames accent) ;;;
       send_colors (solid 0 0 0 18)
   end)%M.

Definition anim_game_end : M unit :=
  (send_each (wipe_frames (64, 0, 0, BRIGHT_LIMIT)) ;;;
   send_each (fade_all 28 10 600))%M.

Definition anim_shutdown : M unit :=
  (repeat_M 3 (send_colors (solid 0 0 0 BRIGHT_LIMIT) ;;;
               send_colors (solid 0 0 0 8)) ;;;
   send_each (fade_all 24 0 900))%M.

Definition anim_reboot : M unit :=
  (send_each (wipe_frames (0, 64, 0, BRIGHT_LIMIT)) ;;;
   send_each (wipe_frames (64, 0, 0, BRIGHT_LIMIT)) ;;;
   send_each (fade_all 28 0 500))%M.

Definition anim_settings_changed : M unit :=
  let '(b, g, r, br) := (32, 32, 0, BRIGHT_LIMIT) in
  repeat_M 3 (send_colors (solid b g r br) ;;; send_colors all_off)%M.

(** ** Dispatch of one event

    The body of the main loop from the decoded event [evt] to the reset of
    [last_idle] (the value decoded from the line, or the empty dict when
    the line is not JSON). *)

Definition event_name (evt : json) : result string :=
  (v <- Py.get evt "event" JNull ;;
   v <- Py.or_else v (Ok (JStr "")) ;;
   Py.lower v)%res.

(** [int(evt.get(k, dflt))] *)
Definition int_field (evt : json) (k : string) (dflt : Z) : result Z :=
  (v <- Py.get evt k (JInt dflt) ;; Py.int v)%res.

Definition handle (fuel : nat) (E : env) (name : string) (evt : json) : M unit :=
  (if String.eqb name "reload-config" then load_config E
   else
     syskey <- liftR (get_system_key E evt) ;;
     romkey <- liftR (get_rom_key E evt) ;;
     if String.eqb name "menu" then
       accent <- with_cfg (fun c => system_accent c (Some syskey)) ;;
       anim_menu_pulse fuel E accent 2.0 ;;;
       modify (set_current_idle (idle_menu accent))
     else if String.eqb name "game-start" then
       anim_game_start (Some syskey) (Some romkey) ;;;
       accent <- with_cfg (fun c => system_accent c (Some syskey)) ;;
       modify (set_current_idle (idle_menu accent))
     else if String.eqb name "game-end" then
       anim_game_end ;;;
       accent <- with_cfg (fun c => system_accent c (Some syskey)) ;;
       modify (set_current_idle (idle_menu accent))
     else if String.eqb name "shutdown" then anim_shutdown
     else if String.eqb name "reboot" then anim_reboot
     else if String.eqb name "settings-changed"
             || String.eqb name "controls-changed" then anim_settings_changed
     else if String.eqb name "attract-on" then
       mode <- with_cfg default_attract_mode ;;
       modify (set_current_idle (idle_attract mode))
     else if String.eqb name "attract-off" then
       accent <- with_cfg (fun c => system_accent c (Some syskey)) ;;
       modify (set_current_idle (idle_menu accent))
     else if String.eqb name "solid" then
       b <- liftR (int_field evt "b" 0) ;;
       g <- liftR (int_field evt "g" 0) ;;
       r <- liftR (int_field evt "r" 0) ;;
       br <- liftR (int_field evt "br" 24) ;;
       send_colors (solid b g r br)
     else if String.eqb name "off" then send_colors all_off
     else ret tt)%M.

Definition dispatch (fuel : nat) (E : env) (evt : json) : M unit :=
  (name <- liftR (event_name evt) ;;
   handle fuel E name evt ;;;
   modify (set_last_idle 0))%M.

(** The names [dispatch] acts on. *)
Definition recognized : list string :=
  ["reload-config"; "menu"; "game-start"; "game-end"; "shutdown"; "reboot";
   "settings-changed"; "controls-changed"; "attract-on"; "attract-off";
   "solid"; "off"].

(** ** Finding the serial port *)

(** What [find_serial_port] asks the system. *)
Record ports : Type := {
  (** [os.environ.get("PM_PORT")] *)
  pm_port : option string;
  (** [os.path.exists] *)
  path_exists : string -> bool;
  (** [os.listdir("/dev/serial/by-id")]; [None] when it raises *)
  by_id : option (list string);
  (** whether [serial.Serial(p, 115200, timeout=0.1)] and its [close()]
      go through without an exception *)
  serial_opens : string -> bool
}.

(** [s.endswith(c)] for one character. *)
Fixpoint endswith_char (c : ascii) (s : string) : bool :=
  match s with
  | EmptyString => false
  | String d EmptyString => Ascii.eqb d c
  | String _ s' => endswith_char c s'
  end.

(** [os.path.join(a, b)] (posixpath). *)
Definition path_join (a b : string) : string :=
  if String.prefix "/" b then b
  else if Nat.eqb (String.length a) 0 || endswith_char "/" a then String.append a b
  else String.append a (String "/" b).

Definition BY_ID : string := "/dev/serial/by-id".

(** The test on a name of the directory. *)
Definition is_candidate (name : string) : bool :=
  let low := PyStr.lower name in
  PyStr.contains "picade" low || PyStr.contains "pimoroni" low
  || PyStr.contains "max" low.

(** The sort key [(("if02" not in p), p)] of a path. *)
Definition port_key (p : string) : bool * string :=
  (negb (PyStr.contains "if02" p), p).

(** The order of the keys: [False] before [True], then the order of the
    strings (by code point). *)
Definition key_leb (k1 k2 : bool * string) : bool :=
  if Bool.eqb (fst k1) (fst k2) then String.leb (snd k1) (snd k2)
  else negb (fst k1).

(** [l.sort(key=key)]: a stable sort; by insertion here. *)
Fixpoint insert_by {A K} (leb : K -> K -> bool) (key : A -> K) (x : A) (l : list A)
  : list A :=
  match l with
  | [] => [x]
  | y :: l' => if leb (key x) (key y) then x :: l else y :: insert_by leb key x l'
  end.

Fixpoint sort_by {A K} (leb : K -> K -> bool) (key : A -> K) (l : list A) : list A :=
  match l with
  | [] => []
  | x :: l' => insert_by leb key x (sort_by leb key l')
  end.

(** The list [cand] after the sort. *)
Definition candidates (P : ports) : list string :=
  sort_by key_leb port_key
    (match by_id P with
     | Some names => map (path_join BY_ID) (List.filter is_candidate names)
     | None => []
     end).

Definition ACM_PATHS : list string := ["/dev/ttyACM0"; "/dev/ttyACM1"].

Definition find_serial_port (P : ports) : option string :=
  let override :=
    match pm_port P with
    | Some env =>
        if negb (Nat.eqb (String.length env) 0) && path_exists P env
        then Some env else None
    | None => None
    end in
  match override with
  | Some env => Some env
  | None =>
      match List.find (serial_opens P) (candidates P) with
      | Some p => Some p
      | None => List.find (fun p => path_exists P p && serial_opens P p) ACM_PATHS
      end
  end.

(** ** Vocabulary of the specification *)

(** The value of a byte, as an integer in [0, 255]. *)
Definition byte_val (b : byte) : Z := Z.of_N (Byte.to_N b).

(** The four bytes the wire frame holds for one colour. *)
Definition wire (c : color) : list Z :=
  let '(b, g, r, br) := c in [_clamp b; _clamp g; _clamp r; _clamp br].

(** The tuple of the logical slot [src] of [cols]. *)
Definition slot (cols : frame) (src : nat) : color :=
  default (0, 0, 0, 0) (cols !! src).

(** An integer that fits a byte. *)
Definition in_byte_range (x : Z) : Prop := 0 <= x <= 255.

(** A colour whose brightness is within the cap. *)
Definition capped (c : color) : Prop := 0 <= brightness c <= BRIGHT_LIMIT.

(** The text [#RRGGBB] made of six characters, followed by [tail]. *)
Definition hex_text (c1 c2 c3 c4 c5 c6 : ascii) (tail : string) : string :=
  String "#" (String c1 (String c2 (String c3 (String c4 (String c5 (String c6 tail)))))).

(** A field that is absent or a string. *)
Definition str_field (e : gmap string json) (k : string) : bool :=
  match e !! k with
  | None | Some (JStr _) => true
  | Some _ => false
  end.

(** A field that is absent or an integer, and its value. *)
Definition int_field_ok (e : gmap string json) (k : string) : bool :=
  match e !! k with
  | None | Some (JInt _) => true
  | Some _ => false
  end.

Definition int_or (e : gmap string json) (k : string) (dflt : Z) : Z :=
  match e !! k with
  | Some (JInt n) => n
  | _ => dflt
  end.

(** The Event of the data model: an object whose [event], [system], [rom]
    (and [rompath]) fields are strings when present. *)
Definition event_record (evt : json) : bool :=
  match evt with
  | JDict e =>
      str_field e "event" && str_field e "system"
      && str_field e "rom" && str_field e "rompath"
  | _ => false
  end.

(** A dict written as the list of its items. *)
Definition dict (items : list (string * json)) : json := JDict (list_to_map items).

(** A configuration that asks for brightness 255 everywhere, with a layout
    for the system and another for one of its ROMs. *)
Definition cfg_bright : json :=
  dict [("snes",
         dict [("start_layout",
                JList [dict [("r", JInt 255); ("br", JInt 255)];
                       JStr "#00FF80:255"]);
               ("rom_overrides",
                dict [("Foo", dict [("start_layout", JList [JStr "#102030:255"])])]);
               ("accent", dict [("b", JInt 9); ("br", JInt 255)])]);
        ("defaults", dict [("menu_color", dict [("g", JInt 7); ("br", JInt 255)])])].

(** An environment with no file to read and a clock that stands still. *)
Definition env_bare : env :=
  {| systems_json := None; es_state := [];
     monotonic := fun _ => 0%float; sin := fun x => x |}.

(** The same with a configuration file that decodes to [v]. *)
Definition env_with_file (v : json) : env :=
  {| systems_json := Some v; es_state := [];
     monotonic := fun _ => 0%float; sin := fun x => x |}.

(** Two states of the daemon with the configuration [cfg_bright]. *)
Definition st_fresh : daemon :=
  {| _cfg := cfg_bright; written := []; clock_reads := 0;
     current_idle := idle_attract "breath"; last_idle := 1%float |}.

Definition st_later : daemon :=
  {| _cfg := cfg_bright; written := [HEADER]; clock_reads := 5;
     current_idle := idle_menu None; last_idle := 2%float |}.

(** The event of the end-to-end scenario of the specification. *)
Definition evt_game_start : gmap string json :=
  list_to_map [("event", JStr "game-start"); ("system", JStr "snes");
               ("rom", JStr "/roms/snes/Foo.sfx")].

(** The string [s] holds no character [c]. *)
Definition no_char (c : ascii) (s : string) : bool :=
  PyStr.all_chars (fun x => negb (Ascii.eqb x c)) s.

(** The string of a field that is a string, the empty string otherwise. *)
Definition str_of (v : option json) : string :=
  match v with
  | Some (JStr s) => s
  | _ => EmptyString
  end.

(** The first string of a list that is not empty, the empty string when
    there is none. *)
Fixpoint first_nonempty (l : list string) : string :=
  match l with
  | [] => EmptyString
  | EmptyString :: l' => first_nonempty l'
  | s :: _ => s
  end.

(** An environment whose launcher state file has the lines [lines]. *)
Definition env_with_state (lines : list string) : env :=
  {| systems_json := None; es_state := lines;
     monotonic := fun _ => 0%float; sin := fun x => x |}.

(** No override: [PM_PORT] is unset, empty, or names no existing path. *)
Definition no_override (P : ports) : Prop :=
  match pm_port P with
  | Some env => String.length env = 0%nat \/ path_exists P env = false
  | None => True
  end.

(** The path of a name of the by-id directory that passes the test. *)
Definition by_id_path (P : ports) (p : string) : Prop :=
  exists names name,
    by_id P = Some names /\ In name names /\ is_candidate name = true
    /\ p = path_join BY_ID name.

(** A system with the directory listing [names], where the paths of
    [openable] exist and open, and no override. *)
Definition ports_of (names openable : list string) : ports :=
  {| pm_port := None;
     path_exists := fun p => existsb (String.eqb p) openable;
     by_id := Some names;
     serial_opens := fun p => existsb (String.eqb p) openable |}.

(** A whole wire frame: the header and [4 * NUM_LEDS] bytes. *)
Definition is_frame (bs : list byte) : Prop :=
  List.length bs = (List.length HEADER + 4 * NUM_LEDS)%nat
  /\ firstn (List.length HEADER) bs = HEADER.

(** The brightness byte of LED [i] in a wire frame. *)
Definition brightness_at (bs : list byte) (i : nat) : Z :=
  byte_val (nth (List.length HEADER + 4 * i + 3) bs "000"%byte).

(** A whole wire frame in which no LED is brighter than the cap. *)
Definition capped_frame (bs : list byte) : Prop :=
  is_frame bs
  /\ forall i, (i < NUM_LEDS)%nat -> 0 <= brightness_at bs i <= BRIGHT_LIMIT.

(** The bytes [send_colors] writes for [cols]. *)
Definition encode (cols : frame) : list byte :=
  match pack_colors (mapped cols) with
  | Ok bs => bs
  | _ => []
  end.

(** The state after the writes [ws], oldest first. *)
Definition add_frames (ws : list (list byte)) (s : daemon) : daemon :=
  fold_left (fun s bs => add_written bs s) ws s.

(** The frames of a generator none of whose steps raises. *)
Fixpoint oks {A} (g : list (result A)) : option (list A) :=
  match g with
  | [] => Some []
  | Ok a :: g' => option_map (cons a) (oks g')
  | _ => None
  end.

(** The computation [m] only appends to what is written, writes that all
    satisfy [P], and a value it returns satisfies [Q]. *)
Definition appends {A} (P : list byte -> Prop) (Q : A -> Prop) (m : M A) : Prop :=
  forall s,
    exists ws,
      written (snd (m s)) = written s ++ ws
      /\ Forall P ws
      /\ forall a, fst (m s) = Ok a -> Q a.

(** The postcondition that asks nothing. *)
Definition any {A} (_ : A) : Prop := True.

(** An accent, when there is one, is within the cap. *)
Definition capped_accent (a : option color) : Prop := forall c, a = Some c -> capped c.

(** Frame [k] of a wipe in colour [c]: LEDs 0 to [k] lit, the others off. *)
Definition wipe_frame (c : color) (k : nat) : frame :=
  repeat c (k + 1) ++ repeat (0, 0, 0, 0) (NUM_LEDS - (k + 1)).

(** The events after which the idle generator is [idle_menu]. *)
Definition sets_menu_idle (name : string) : bool :=
  existsb (String.eqb name) ["menu"; "game-start"; "game-end"; "attract-off"].

(** The idle generator after an event named [name] that is handled to the
    end in state [s]. *)
Definition idle_after (E : env) (evt : json) (name : string) (s : daemon) : idle_gen :=
  if sets_menu_idle name then
    match rbind (get_system_key E evt) (fun sk => system_accent (_cfg s) (Some sk)) with
    | Ok accent => idle_menu accent
    | _ => current_idle s
    end
  else if String.eqb name "attract-on" then
    match default_attract_mode (_cfg s) with
    | Ok mode => idle_attract mode
    | _ => current_idle s
    end
  else current_idle s.

(** The computation [m] changes neither the idle generator nor the
    configuration. *)
Definition keeps {A} (m : M A) : Prop :=
  forall s,
    current_idle (snd (m s)) = current_idle s /\ _cfg (snd (m s)) = _cfg s.

(** The outcome of a computation on the idle generator: [g] when it
    returns, no change when it does not. *)
Definition idle_outcome (m : M unit) (s : daemon) (g : idle_gen) : Prop :=
  (fst (m s) = Ok tt -> current_idle (snd (m s)) = g)
  /\ (fst (m s) <> Ok tt -> current_idle (snd (m s)) = current_idle s).

(** The first [k] tests of the loop of [anim_menu_pulse] pass, when the
    loop starts at clock reading [n]: the readings [n], [n + 2], ... are
    less than [seconds] after [t0]. *)
Fixpoint pulse_checks (E : env) (t0 seconds : float) (n k : nat) : bool :=
  match k with
  | O => true
  | S k' =>
      (monotonic E n - t0 <? seconds)%float
      && pulse_checks E t0 seconds (S (S n)) k'
  end.

(** The times of the first [k] frames of that loop: the readings [n + 1],
    [n + 3], ... *)
Fixpoint pulse_times (E : env) (n k : nat) : list float :=
  match k with
  | O => []
  | S k' => monotonic E (S n) :: pulse_times E (S (S n)) k'
  end.

(** A frame that shows the channels of [c] on every LED, at one brightness
    that fits in a byte. *)
Definition one_colour (c : color) (cols : frame) : Prop :=
  let '(b, g, r, _) := c in
  exists lvl, 0 <= lvl <= 255 /\ cols = repeat (b, g, r, lvl) NUM_LEDS.

(** An environment whose clock gives the readings [ts], then stands at 3
    seconds. *)
Definition env_clock (ts : list float) : env :=
  {| systems_json := None; es_state := [];
     monotonic := fun i => nth i ts 3%float; sin := fun x => x |}.

(** * Properties *)

(** ** The monads *)

Lemma rbind_Ok {A B} (r : result A) (k : A -> result B) (b : B) :
  rbind r k = Ok b -> exists a, r = Ok a /\ k a = Ok b.
Proof. destruct r as [a| |]; simpl; intros H; [eauto | discriminate ..]. Qed.

Lemma mapR_Ok_Forall2 {A B} (f : A -> result B) (l : list A) (bs : list B) :
  mapR f l = Ok bs -> Forall2 (fun a b => f a = Ok b) l bs.
Proof.
  revert bs. induction l as [|a l IH]; simpl; intros bs H.
  - injection H as <-. constructor.
  - apply rbind_Ok in H as (b & Hb & H).
    apply rbind_Ok in H as (bs' & Hbs & H).
    injection H as <-. constructor; auto.
Qed.

Lemma mapR_length {A B} (f : A -> result B) (l : list A) (bs : list B) :
  mapR f l = Ok bs -> List.length bs = List.length l.
Proof.
  intros H. apply mapR_Ok_Forall2 in H.
  symmetry. exact (Forall2_length _ _ _ H).
Qed.

Lemma mapR_Forall {A B} (P : B -> Prop) (f : A -> result B) (l : list A)
    (bs : list B) :
  (forall a b, f a = Ok b -> P b) -> mapR f l = Ok bs -> Forall P bs.
Proof.
  intros Hf H. apply mapR_Ok_Forall2 in H.
  induction H; constructor; eauto.
Qed.

(** ** Clamping *)

Lemma _clamp_range (x : Z) : 0 <= _clamp x <= 255.
Proof.
  unfold _clamp.
  destruct (Z.ltb_spec x 0); [lia|].
  destruct (Z.gtb_spec x 255); lia.
Qed.

Lemma _clamp_id (x : Z) : 0 <= x <= 255 -> _clamp x = x.
Proof.
  intros H. unfold _clamp.
  destruct (Z.ltb_spec x 0); [lia|].
  destruct (Z.gtb_spec x 255); lia.
Qed.

Lemma _clamp_idem (x : Z) : _clamp (_clamp x) = _clamp x.
Proof. apply _clamp_id, _clamp_range. Qed.

Lemma _clamp_capped (br : Z) :
  0 <= _clamp (Z.min br BRIGHT_LIMIT) <= BRIGHT_LIMIT.
Proof.
  unfold _clamp, BRIGHT_LIMIT.
  destruct (Z.ltb_spec (Z.min br 170) 0); [lia|].
  destruct (Z.gtb_spec (Z.min br 170) 255); lia.
Qed.

(** ** Frame codec *)

Lemma wire_range (c : color) : Forall in_byte_range (wire c).
Proof.
  destruct c as [[[b g] r] br]. unfold wire.
  repeat constructor; apply _clamp_range.
Qed.

Lemma py_bytes_Ok (xs : list Z) :
  Forall in_byte_range xs ->
  exists bs, py_bytes xs = Ok bs /\ map byte_val bs = xs.
Proof.
  unfold py_bytes. induction 1 as [|x xs Hx _ (bs & Hbs & Hval)].
  - exists []. split; reflexivity.
  - unfold in_byte_range in Hx. simpl.
    replace ((0 <=? x) && (x <? 256)) with true
      by (symmetry; apply andb_true_iff; split; [apply Z.leb_le | apply Z.ltb_lt]; lia).
    destruct (Byte.of_N (Z.to_N x)) as [b|] eqn:Hb.
    + exists (b :: bs). simpl. rewrite Hbs. split; [reflexivity|].
      apply Byte.to_of_N in Hb. unfold byte_val at 1. rewrite Hb, Hval.
      f_equal. lia.
    + apply Byte.of_N_None_iff in Hb. lia.
Qed.

(** [pack_colors] never raises: every byte it builds is a clamped channel. *)
Lemma pack_colors_Ok (cols : frame) :
  exists payload,
    pack_colors cols = Ok (HEADER ++ payload)
    /\ map byte_val payload = flat_map wire cols.
Proof.
  unfold pack_colors.
  induction cols as [|c cols (payload & Hp & Hval)]; simpl.
  - exists []. split; reflexivity.
  - destruct (py_bytes_Ok (wire c) (wire_range c)) as (bs & Hbs & Hbv).
    destruct c as [[[b g] r] br]. simpl in Hbs. rewrite Hbs. simpl.
    destruct (mapR _ cols) as [chunks| |] eqn:Hm; simpl in Hp; try discriminate.
    injection Hp as Hp. subst payload.
    exists (bs ++ concat chunks). simpl. split; [reflexivity|].
    rewrite map_app, Hbv, Hval. reflexivity.
Qed.

Lemma length_flat_map_wire (cols : frame) :
  List.length (flat_map wire cols) = (4 * List.length cols)%nat.
Proof.
  induction cols as [|[[[b g] r] br] cols IH]; simpl; [reflexivity|].
  rewrite IH. lia.
Qed.


Lemma send_colors_Ok (cols : frame) (s : daemon) :
  exists payload,
    send_colors cols s = (Ok tt, add_written (HEADER ++ payload) s)
    /\ map byte_val payload = flat_map wire (mapped cols).
Proof.
  destruct (pack_colors_Ok (mapped cols)) as (payload & Hp & Hval).
  exists payload. split; [|exact Hval].
  unfold send_colors, bind, liftR, modify. rewrite Hp. reflexivity.
Qed.


(** ** Layouts and colours from the configuration *)

(** Inversion of a successful [rbind] chain. *)
Ltac res_inv H :=
  repeat match type of H with
    | rbind _ _ = Ok _ =>
        let a := fresh "v" in
        let Ha := fresh "Hv" in
        apply rbind_Ok in H as (a & Ha & H)
    end.

Lemma capped_zero : capped (0, 0, 0, 0).
Proof. unfold capped, BRIGHT_LIMIT. simpl. lia. Qed.

Lemma color_of_item_capped (item : json) (c : color) :
  color_of_item item = Ok c -> capped c.
Proof.
  destruct item as [| | | |s| |d]; simpl; intros H;
    try (injection H as <-; apply capped_zero).
  - destruct (PyStr.split1 ":" (PyStr.strip s)) as [[s' brs]|];
      [destruct (PyStr.int_of_string 10 brs) as [n|]|];
      (destruct (String.prefix "#" _ && _);
       [|injection H as <-; apply capped_zero]);
      repeat match type of H with
        | match ?x with _ => _ end = _ => destruct x; try discriminate
        end;
      injection H as <-; apply _clamp_capped.
  - res_inv H. injection H as <-. apply _clamp_capped.
Qed.

Lemma color_of_dict_capped (d : json) (c : color) :
  color_of_dict d = Ok c -> capped c.
Proof.
  unfold color_of_dict. intros H. res_inv H. injection H as <-.
  apply _clamp_capped.
Qed.

Lemma cols_from_layout_inv (layout : json) (cols : frame) :
  cols_from_layout layout = Ok cols ->
  List.length cols = NUM_LEDS /\ Forall capped cols.
Proof.
  unfold cols_from_layout. intros H. res_inv H. injection H as <-.
  pose proof (mapR_length _ _ _ Hv0) as Hlen. rewrite length_seq in Hlen.
  split.
  - rewrite length_app, repeat_length. lia.
  - apply Forall_app. split.
    + refine (mapR_Forall capped _ _ _ _ Hv0). intros i c Hc.
      res_inv Hc. exact (color_of_item_capped _ _ Hc).
    + apply List.Forall_forall. intros c Hc. apply repeat_spec in Hc as ->.
      apply capped_zero.
Qed.

(** A layout that [lookup_start_layout] returns is the conversion of some
    layout of the configuration. *)
Lemma lookup_start_layout_inv (cfg : json) (sk rk : option string) (cols : frame) :
  lookup_start_layout cfg sk rk = Ok (Some cols) ->
  exists layout, cols_from_layout layout = Ok cols.
Proof.
  unfold lookup_start_layout. intros H.
  apply rbind_Ok in H as (syscfg & _ & H).
  apply rbind_Ok in H as (has_ro & _ & H).
  apply rbind_Ok in H as (from_rom & Hrom & H).
  destruct from_rom as [cols'|].
  - injection H as ->.
    destruct has_ro; [|discriminate].
    apply rbind_Ok in Hrom as (overrides & _ & Hrom).
    apply rbind_Ok in Hrom as (ro & _ & Hrom).
    apply rbind_Ok in Hrom as (has_sl & _ & Hrom).
    destruct has_sl; [|discriminate].
    apply rbind_Ok in Hrom as (layout & _ & Hrom).
    apply rbind_Ok in Hrom as (cols' & Hcols & Hrom).
    injection Hrom as ->. eauto.
  - apply rbind_Ok in H as (has_sl & _ & H).
    destruct has_sl; [|discriminate].
    apply rbind_Ok in H as (layout & _ & H).
    apply rbind_Ok in H as (cols' & Hcols & H).
    injection H as ->. eauto.
Qed.

Lemma system_accent_capped (cfg : json) (sk : option string) (c : color) :
  system_accent cfg sk = Ok (Some c) -> capped c.
Proof.
  unfold system_accent. intros H.
  apply rbind_Ok in H as (syscfg & _ & H).
  apply rbind_Ok in H as (a & _ & H).
  destruct a; try discriminate.
  apply rbind_Ok in H as (col & Hcol & H). injection H as <-.
  exact (color_of_dict_capped _ _ Hcol).
Qed.

Lemma default_menu_color_capped (cfg : json) (c : color) :
  default_menu_color cfg = Ok c -> capped c.
Proof.
  unfold default_menu_color. intros H.
  apply rbind_Ok in H as (d & _ & H).
  apply rbind_Ok in H as (a & _ & H).
  destruct a; try (injection H as <-; unfold capped, BRIGHT_LIMIT; simpl; lia).
  exact (color_of_dict_capped _ _ H).
Qed.

(** C3. Whatever the configuration holds, a colour that comes out of it has
    a brightness of at most [BRIGHT_LIMIT]: every tuple of a layout that
    [lookup_start_layout] returns, the accent that [system_accent] returns,
    and the colour that [default_menu_color] returns. *)
Theorem config_brightness_capped (cfg : json) (sk rk : option string) :
  (forall cols, lookup_start_layout cfg sk rk = Ok (Some cols) ->
                Forall (fun c => brightness c <= BRIGHT_LIMIT) cols)
  /\ (forall c, system_accent cfg sk = Ok (Some c) -> brightness c <= BRIGHT_LIMIT)
  /\ (forall c, default_menu_color cfg = Ok c -> brightness c <= BRIGHT_LIMIT).
Proof.
  split; [|split].
  - intros cols H. apply lookup_start_layout_inv in H as (layout & H).
    apply cols_from_layout_inv in H as [_ H].
    eapply List.Forall_impl; [|exact H]. intros c Hc. apply Hc.
  - intros c H. apply (system_accent_capped _ _ _ H).
  - intros c H. apply (default_menu_color_capped _ _ H).
Qed.

Lemma config_brightness_capped_witness :
  lookup_start_layout cfg_bright (Some "snes") (Some "Bar")
  = Ok (Some [(0, 0, 255, 170); (128, 255, 0, 170); (0, 0, 0, 0); (0, 0, 0, 0);
              (0, 0, 0, 0); (0, 0, 0, 0); (0, 0, 0, 0)])
  /\ system_accent cfg_bright (Some "snes") = Ok (Some (9, 0, 0, 170))
  /\ default_menu_color cfg_bright = Ok (0, 7, 0, 170)
  /\ Forall (fun c => brightness c <= BRIGHT_LIMIT)
       [(0, 0, 255, 170); (128, 255, 0, 170); (0, 0, 0, 0); (0, 0, 0, 0);
        (0, 0, 0, 0); (0, 0, 0, 0); (0, 0, 0, 0)]
  /\ brightness (9, 0, 0, 170) <= BRIGHT_LIMIT
  /\ brightness (0, 7, 0, 170) <= BRIGHT_LIMIT.
Proof.
  assert (H1 : lookup_start_layout cfg_bright (Some "snes") (Some "Bar")
               = Ok (Some [(0, 0, 255, 170); (128, 255, 0, 170); (0, 0, 0, 0);
                           (0, 0, 0, 0); (0, 0, 0, 0); (0, 0, 0, 0); (0, 0, 0, 0)]))
    by (vm_compute; reflexivity).
  assert (H2 : system_accent cfg_bright (Some "snes") = Ok (Some (9, 0, 0, 170)))
    by (vm_compute; reflexivity).
  assert (H3 : default_menu_color cfg_bright = Ok (0, 7, 0, 170))
    by (vm_compute; reflexivity).
  destruct (config_brightness_capped cfg_bright (Some "snes") (Some "Bar"))
    as (K1 & K2 & K3).
  split; [exact H1|]. split; [exact H2|]. split; [exact H3|].
  split; [exact (K1 _ H1)|]. split; [exact (K2 _ H2) | exact (K3 _ H3)].
Defined.

(** A dict that holds a key is true. *)
Lemma truthy_dict_lookup (d : gmap string json) (k : string) (v : json) :
  d !! k = Some v -> Py.truthy (JDict d) = true.
Proof.
  intros H. simpl.
  destruct (size d) eqn:Hsz; [|reflexivity].
  apply map_size_empty_inv in Hsz. subst d.
  rewrite lookup_empty in H. discriminate.
Qed.

(** The resolution through [rom_overrides], shared by the properties of
    the resolver and of the game-start handler. *)
Lemma lookup_rom_override
    (c sc ros ro : gmap string json) (sk rk : option string) (rom_layout : json) :
  c !! Py.key_or_empty sk = Some (JDict sc) ->
  sc !! "rom_overrides" = Some (JDict ros) ->
  ros !! Py.key_or_empty rk = Some (JDict ro) ->
  ro !! "start_layout" = Some rom_layout ->
  lookup_start_layout (JDict c) sk rk
  = rbind (cols_from_layout rom_layout) (fun cols => Ok (Some cols)).
Proof.
  intros Hsys Hros Hro Hrl.
  pose proof (truthy_dict_lookup sc _ _ Hros) as Hsc.
  pose proof (truthy_dict_lookup ro _ _ Hrl) as Htro.
  simpl in Hsc, Htro.
  unfold lookup_start_layout, and_then. simpl. rewrite Hsys. simpl.
  rewrite Hsc, Hros. simpl. rewrite Hro. simpl. rewrite Htro, Hrl. simpl.
  destruct (cols_from_layout rom_layout); reflexivity.
Qed.

(** C4. When the entry of the system holds a [start_layout] of its own and
    its [rom_overrides] holds, for the ROM key asked, an entry with a
    [start_layout], the resolution is the conversion of the layout of the
    ROM: the layout of the system is not looked at. *)
Theorem rom_override_precedence
    (c sc ros ro : gmap string json) (sk rk : option string)
    (sys_layout rom_layout : json) :
  c !! Py.key_or_empty sk = Some (JDict sc) ->
  sc !! "start_layout" = Some sys_layout ->
  sc !! "rom_overrides" = Some (JDict ros) ->
  ros !! Py.key_or_empty rk = Some (JDict ro) ->
  ro !! "start_layout" = Some rom_layout ->
  lookup_start_layout (JDict c) sk rk
  = rbind (cols_from_layout rom_layout) (fun cols => Ok (Some cols)).
Proof.
  intros Hsys _ Hros Hro Hrl.
  exact (lookup_rom_override c sc ros ro sk rk rom_layout Hsys Hros Hro Hrl).
Qed.

Lemma rom_override_precedence_witness :
  lookup_start_layout cfg_bright (Some "snes") (Some "Foo")
  = Ok (Some [(48, 32, 16, 170); (0, 0, 0, 0); (0, 0, 0, 0); (0, 0, 0, 0);
              (0, 0, 0, 0); (0, 0, 0, 0); (0, 0, 0, 0)]).
Proof.
  unfold cfg_bright, dict at 1.
  rewrite (rom_override_precedence _
             (list_to_map
                [("start_layout",
                  JList [dict [("r", JInt 255); ("br", JInt 255)];
                         JStr "#00FF80:255"]);
                 ("rom_overrides",
                  dict [("Foo", dict [("start_layout", JList [JStr "#102030:255"])])]);
                 ("accent", dict [("b", JInt 9); ("br", JInt 255)])])
             (list_to_map [("Foo", dict [("start_layout", JList [JStr "#102030:255"])])])
             (list_to_map [("start_layout", JList [JStr "#102030:255"])])
             (Some "snes") (Some "Foo")
             (JList [dict [("r", JInt 255); ("br", JInt 255)]; JStr "#00FF80:255"])
             (JList [JStr "#102030:255"]));
    vm_compute; reflexivity.
Defined.



(** ** Dispatch *)

(** Decides the tests of [handle] on a name that is known. *)
Ltac name_tests :=
  repeat match goal with
    | |- context [String.eqb ?a ?b] =>
        let v := eval vm_compute in (String.eqb a b) in
        change (String.eqb a b) with v
    end;
  cbv beta iota delta [orb].

Section Dispatch.

Variables (fuel : nat) (E : env).

(** An event record gives a system key and a ROM key: neither lookup
    raises, whatever the launcher state file holds. *)
Lemma event_record_keys (evt : json) :
  event_record evt = true ->
  exists sk rk, get_system_key E evt = Ok sk /\ get_rom_key E evt = Ok rk.
Proof.
  destruct evt as [| | | | | |e]; try discriminate. unfold event_record, str_field.
  intros H. repeat (apply andb_true_iff in H as [H ?]).
  assert (Hsys : exists sk, get_system_key E (JDict e) = Ok sk).
  { unfold get_system_key. simpl.
    destruct (e !! "system") as [[| | | |sys| |]|]; try discriminate; simpl;
      [destruct sys as [|ch sys]; simpl|]; eauto. }
  assert (Hrom : exists rk, get_rom_key E (JDict e) = Ok rk).
  { unfold get_rom_key. simpl.
    destruct (e !! "rom") as [[| | | |rom| |]|]; try discriminate; simpl;
      [destruct rom as [|ch rom]; simpl; [|eauto]|];
      (destruct (e !! "rompath") as [[| | | |rp| |]|]; try discriminate; simpl;
       [destruct rp as [|ch' rp]; simpl|]; eauto). }
  destruct Hsys as (sk & Hsk), Hrom as (rk & Hrk). eauto.
Qed.

(** A name outside [recognized] fails every test of [handle]. *)
Lemma unrecognized_tests (name : string) :
  ~ In name recognized ->
  Forall (fun known => String.eqb name known = false) recognized.
Proof.
  intros Hnot. apply List.Forall_forall. intros known Hin.
  destruct (String.eqb_spec name known) as [->|]; [contradiction | reflexivity].
Qed.

(** C7. An event record whose name is not one of the names the dispatcher
    acts on raises nothing, writes nothing to the serial port, and leaves
    the idle generator and the configuration as they were; only the time of
    the last idle frame is reset. *)
Theorem unknown_event_ignored (evt : json)
    (name : string) (s : daemon) :
  event_record evt = true ->
  event_name evt = Ok name ->
  ~ In name recognized ->
  dispatch fuel E evt s = (Ok tt, set_last_idle 0 s)
  /\ written (snd (dispatch fuel E evt s)) = written s
  /\ current_idle (snd (dispatch fuel E evt s)) = current_idle s.
Proof.
  intros Hrec Hname Hnot.
  destruct (event_record_keys evt Hrec) as (sk & rk & Hsk & Hrk).
  assert (Hd : dispatch fuel E evt s = (Ok tt, set_last_idle 0 s)).
  { pose proof (unrecognized_tests name Hnot) as Htests.
    unfold recognized in Htests.
    repeat match goal with
      | H : Forall _ (_ :: _) |- _ =>
          let Hx := fresh "Hx" in
          apply Forall_cons_iff in H as [Hx H]
      end.
    unfold dispatch, handle, bind, liftR. rewrite Hname.
    rewrite Hx, Hx0, Hx1, Hx2, Hx3, Hx4, Hx5, Hx6, Hx7, Hx8, Hx9, Hx10.
    rewrite Hsk, Hrk. reflexivity. }
  rewrite Hd. auto.
Qed.

(** The frame that [send_colors] writes for [solid]. *)
Lemma send_solid (b g r br : Z) (s : daemon) :
  exists bytes,
    send_colors (solid b g r br) s = (Ok tt, add_written bytes s)
    /\ map byte_val bytes
       = map byte_val HEADER
         ++ concat (repeat [_clamp b; _clamp g; _clamp r;
                            _clamp (Z.min br BRIGHT_LIMIT)] NUM_LEDS).
Proof.
  destruct (send_colors_Ok (solid b g r br) s) as (payload & Hsend & Hval).
  exists (HEADER ++ payload). split; [exact Hsend|].
  rewrite map_app, Hval. f_equal.
  unfold mapped, solid, ORDER, NUM_LEDS. simpl.
  rewrite _clamp_idem. reflexivity.
Qed.

Lemma int_field_of_int (e : gmap string json) (k : string) (dflt : Z) :
  int_field_ok e k = true -> int_field (JDict e) k dflt = Ok (int_or e k dflt).
Proof.
  unfold int_field_ok, int_field, int_or. simpl.
  destruct (e !! k) as [[| |n| | | |]|]; try discriminate; reflexivity.
Qed.

(** C9. For a [solid] event whose [b], [g], [r], [br] fields are integers
    (or absent, with the defaults 0, 0, 0, 24), the dispatcher writes one
    frame in which every LED has the brightness byte
    [_clamp(min(br, BRIGHT_LIMIT))], which is at most [BRIGHT_LIMIT], and
    the three colour bytes [_clamp(b)], [_clamp(g)], [_clamp(r)]: the
    colour channels are clamped to a byte and not capped. *)
Theorem solid_event_frame (e : gmap string json)
    (s : daemon) :
  event_record (JDict e) = true ->
  event_name (JDict e) = Ok "solid" ->
  int_field_ok e "b" = true -> int_field_ok e "g" = true ->
  int_field_ok e "r" = true -> int_field_ok e "br" = true ->
  exists bytes,
    dispatch fuel E (JDict e) s = (Ok tt, set_last_idle 0 (add_written bytes s))
    /\ map byte_val bytes
       = map byte_val HEADER
         ++ concat (repeat [_clamp (int_or e "b" 0); _clamp (int_or e "g" 0);
                            _clamp (int_or e "r" 0);
                            _clamp (Z.min (int_or e "br" 24) BRIGHT_LIMIT)]
                      NUM_LEDS)
    /\ 0 <= _clamp (Z.min (int_or e "br" 24) BRIGHT_LIMIT) <= BRIGHT_LIMIT.
Proof.
  intros Hrec Hname Hb Hg Hr Hbr.
  destruct (event_record_keys _ Hrec) as (sk & rk & Hsk & Hrk).
  destruct (send_solid (int_or e "b" 0) (int_or e "g" 0) (int_or e "r" 0)
              (int_or e "br" 24) s) as (bytes & Hsend & Hval).
  exists bytes. split; [|split; [exact Hval | apply _clamp_capped]].
  unfold dispatch, bind, liftR. rewrite Hname.
  unfold handle, bind, liftR. name_tests.
  rewrite Hsk, Hrk.
  rewrite (int_field_of_int e "b" 0 Hb), (int_field_of_int e "g" 0 Hg),
    (int_field_of_int e "r" 0 Hr), (int_field_of_int e "br" 24 Hbr).
  cbv beta iota. rewrite Hsend. reflexivity.
Qed.

(** The resolvers on the empty configuration. *)
Lemma resolvers_on_empty (sk rk : option string) :
  lookup_start_layout (JDict ∅) sk rk = Ok None
  /\ system_accent (JDict ∅) sk = Ok None
  /\ default_menu_color (JDict ∅) = Ok (0, 32, 64, 28)
  /\ default_attract_mode (JDict ∅) = Ok "breath".
Proof.
  unfold lookup_start_layout, system_accent, default_menu_color,
    default_attract_mode, and_then. simpl.
  rewrite !lookup_empty. simpl. rewrite !lookup_empty. simpl.
  rewrite map_size_empty. simpl. auto.
Qed.

(** C10. When the configuration file cannot be loaded, [load_config], at
    start-up and on a [reload-config] event alike, replaces the
    configuration in memory by the empty dict, whatever it was before; the
    event writes nothing, and from then on every resolver answers with its
    built-in default or with no match. *)
Theorem failed_reload_discards_config (evt : json)
    (s : daemon) :
  systems_json E = None ->
  event_name evt = Ok "reload-config" ->
  load_config E s = (Ok tt, set_cfg (JDict ∅) s)
  /\ dispatch fuel E evt s = (Ok tt, set_last_idle 0 (set_cfg (JDict ∅) s))
  /\ _cfg (snd (dispatch fuel E evt s)) = JDict ∅
  /\ forall sk rk,
       let cfg := _cfg (snd (dispatch fuel E evt s)) in
       lookup_start_layout cfg sk rk = Ok None
       /\ system_accent cfg sk = Ok None
       /\ default_menu_color cfg = Ok (0, 32, 64, 28)
       /\ default_attract_mode cfg = Ok "breath".
Proof.
  intros Hfile Hname.
  assert (Hload : load_config E s = (Ok tt, set_cfg (JDict ∅) s)).
  { unfold load_config. rewrite Hfile. reflexivity. }
  assert (Hd : dispatch fuel E evt s
               = (Ok tt, set_last_idle 0 (set_cfg (JDict ∅) s))).
  { unfold dispatch, bind, liftR. rewrite Hname.
    unfold handle. name_tests. rewrite Hload. reflexivity. }
  split; [exact Hload|]. split; [exact Hd|]. rewrite Hd. simpl.
  split; [reflexivity|]. intros sk rk. apply resolvers_on_empty.
Qed.

(** The ROM key of an event that names a ROM path: the basename of the path
    without its extension. *)
Lemma get_rom_key_of_path (e : gmap string json) (c : ascii) (p : string) :
  e !! "rom" = Some (JStr (String c p)) ->
  get_rom_key E (JDict e)
  = Ok (PyStr.splitext_root (PyStr.basename (String c p))).
Proof. intros H. unfold get_rom_key. simpl. rewrite H. reflexivity. Qed.

(** The system key of an event that names a system: the name in lower case. *)
Lemma get_system_key_of_name (e : gmap string json) (c : ascii) (n : string) :
  e !! "system" = Some (JStr (String c n)) ->
  get_system_key E (JDict e) = Ok (PyStr.lower (String c n)).
Proof. intros H. unfold get_system_key. simpl. rewrite H. reflexivity. Qed.

(** C6. On a [game-start] event, when the entry of the system of the event
    holds under [rom_overrides] a [start_layout] for the ROM key of the
    event (the basename of the ROM path without its extension), and the
    layout and the accent of the system convert, the dispatcher writes one
    frame and no more, the frame of the layout, and then sets the idle
    generator to [idle_menu] with the accent of the system; the base colour
    of that generator is the accent, or the default menu colour when the
    system declares none. *)
Theorem game_start_rom_layout (evt : json) (s : daemon)
    (c sc ros ro : gmap string json) (syskey romkey : string)
    (layout : json) (cols : frame) (accent : option color) :
  event_name evt = Ok "game-start" ->
  get_system_key E evt = Ok syskey ->
  get_rom_key E evt = Ok romkey ->
  _cfg s = JDict c ->
  c !! syskey = Some (JDict sc) ->
  sc !! "rom_overrides" = Some (JDict ros) ->
  ros !! romkey = Some (JDict ro) ->
  ro !! "start_layout" = Some layout ->
  cols_from_layout layout = Ok cols ->
  system_accent (JDict c) (Some syskey) = Ok accent ->
  exists bytes,
    pack_colors (mapped cols) = Ok bytes
    /\ dispatch fuel E evt s
       = (Ok tt, set_last_idle 0
                   (set_current_idle (idle_menu accent) (add_written bytes s)))
    /\ written (snd (dispatch fuel E evt s)) = written s ++ [bytes]
    /\ current_idle (snd (dispatch fuel E evt s)) = idle_menu accent
    /\ fst (base_color accent (snd (dispatch fuel E evt s)))
       = match accent with
         | Some a => Ok a
         | None => default_menu_color (JDict c)
         end.
Proof.
  intros Hname Hsk Hrk Hcfg Hsys Hros Hro Hsl Hcols Hacc.
  destruct (pack_colors_Ok (mapped cols)) as (payload & Hpack & _).
  exists (HEADER ++ payload).
  assert (Hlook : lookup_start_layout (JDict c) (Some syskey) (Some romkey)
                  = Ok (Some cols)).
  { rewrite (lookup_rom_override c sc ros ro (Some syskey) (Some romkey) layout
               Hsys Hros Hro Hsl), Hcols. reflexivity. }
  assert (Hne : exists c0 cols', cols = c0 :: cols').
  { apply cols_from_layout_inv in Hcols as [Hlen _].
    destruct cols as [|c0 cols']; [discriminate | eauto]. }
  destruct Hne as (c0 & cols' & Hne).
  assert (Hd : dispatch fuel E evt s
               = (Ok tt, set_last_idle 0
                           (set_current_idle (idle_menu accent)
                              (add_written (HEADER ++ payload) s)))).
  { unfold dispatch, bind, liftR. rewrite Hname.
    unfold handle, bind, liftR. name_tests. rewrite Hsk, Hrk. cbv beta iota.
    unfold anim_game_start, bind, with_cfg. rewrite Hcfg, Hlook. cbv beta iota.
    rewrite Hne. cbv beta iota. rewrite <- Hne.
    unfold send_colors, bind, liftR, modify. rewrite Hpack. cbv beta iota.
    simpl _cfg. rewrite Hcfg, Hacc. reflexivity. }
  split; [exact Hpack|]. split; [exact Hd|]. rewrite Hd.
  split; [reflexivity|]. split; [reflexivity|].
  destruct accent as [a|]; simpl; [reflexivity|]. rewrite Hcfg. reflexivity.
Qed.

End Dispatch.

Lemma unknown_event_ignored_witness :
  dispatch 0 env_bare
    (dict [("event", JStr "Screensaver"); ("system", JStr "snes")]) st_fresh
  = (Ok tt, set_last_idle 0 st_fresh)
  /\ written (snd (dispatch 0 env_bare
                     (dict [("event", JStr "Screensaver"); ("system", JStr "snes")])
                     st_fresh)) = written st_fresh
  /\ current_idle (snd (dispatch 0 env_bare
                          (dict [("event", JStr "Screensaver"); ("system", JStr "snes")])
                          st_fresh)) = current_idle st_fresh.
Proof.
  apply (unknown_event_ignored 0 env_bare _ "screensaver" st_fresh).
  - vm_compute. reflexivity.
  - vm_compute. reflexivity.
  - intros H. simpl in H.
    repeat (destruct H as [H|H]; [discriminate|]). exact H.
Defined.

Lemma solid_event_frame_witness :
  exists bytes,
    dispatch 0 env_bare
      (dict [("event", JStr "solid"); ("b", JInt 300); ("g", JInt (-5));
             ("br", JInt 255)]) st_fresh
    = (Ok tt, set_last_idle 0 (add_written bytes st_fresh))
    /\ map byte_val bytes
       = map byte_val HEADER ++ concat (repeat [255; 0; 0; 170] NUM_LEDS).
Proof.
  destruct (solid_event_frame 0 env_bare
              (list_to_map [("event", JStr "solid"); ("b", JInt 300);
                            ("g", JInt (-5)); ("br", JInt 255)]) st_fresh)
    as (bytes & Hd & Hval & _); try (vm_compute; reflexivity).
  exists bytes. split; [exact Hd|].
  rewrite Hval. vm_compute. reflexivity.
Defined.

Lemma failed_reload_discards_config_witness :
  _cfg st_fresh = cfg_bright
  /\ _cfg (snd (dispatch 0 env_bare (dict [("event", JStr "Reload-Config")]) st_fresh))
     = JDict ∅
  /\ system_accent
       (_cfg (snd (dispatch 0 env_bare (dict [("event", JStr "Reload-Config")]) st_fresh)))
       (Some "snes") = Ok None.
Proof.
  destruct (failed_reload_discards_config 0 env_bare
              (dict [("event", JStr "Reload-Config")]) st_fresh)
    as (_ & _ & Hcfg & Hres); try (vm_compute; reflexivity).
  split; [reflexivity|]. split; [exact Hcfg|].
  exact (proj1 (proj2 (Hres (Some "snes") None))).
Defined.

Lemma game_start_rom_layout_witness :
  exists bytes,
    pack_colors (mapped [(48, 32, 16, 170); (0, 0, 0, 0); (0, 0, 0, 0); (0, 0, 0, 0);
                         (0, 0, 0, 0); (0, 0, 0, 0); (0, 0, 0, 0)]) = Ok bytes
    /\ dispatch 0 env_bare (JDict evt_game_start) st_fresh
       = (Ok tt, set_last_idle 0
                   (set_current_idle (idle_menu (Some (9, 0, 0, 170)))
                      (add_written bytes st_fresh)))
    /\ written (snd (dispatch 0 env_bare (JDict evt_game_start) st_fresh)) = [bytes].
Proof.
  destruct (game_start_rom_layout 0 env_bare (JDict evt_game_start) st_fresh
              (list_to_map
                 [("snes",
                   dict [("start_layout",
                          JList [dict [("r", JInt 255); ("br", JInt 255)];
                                 JStr "#00FF80:255"]);
                         ("rom_overrides",
                          dict [("Foo", dict [("start_layout", JList [JStr "#102030:255"])])]);
                         ("accent", dict [("b", JInt 9); ("br", JInt 255)])]);
                  ("defaults",
                   dict [("menu_color", dict [("g", JInt 7); ("br", JInt 255)])])])
              (list_to_map
                 [("start_layout",
                   JList [dict [("r", JInt 255); ("br", JInt 255)];
                          JStr "#00FF80:255"]);
                  ("rom_overrides",
                   dict [("Foo", dict [("start_layout", JList [JStr "#102030:255"])])]);
                  ("accent", dict [("b", JInt 9); ("br", JInt 255)])])
              (list_to_map [("Foo", dict [("start_layout", JList [JStr "#102030:255"])])])
              (list_to_map [("start_layout", JList [JStr "#102030:255"])])
              "snes" "Foo" (JList [JStr "#102030:255"])
              [(48, 32, 16, 170); (0, 0, 0, 0); (0, 0, 0, 0); (0, 0, 0, 0);
               (0, 0, 0, 0); (0, 0, 0, 0); (0, 0, 0, 0)]
              (Some (9, 0, 0, 170)))
    as (bytes & Hpack & Hd & Hw & _); try (vm_compute; reflexivity).
  exists bytes. split; [exact Hpack|]. split; [exact Hd | exact Hw].
Defined.

(** ** Where the resolvers raise *)

(** C2. The resolvers do raise on malformed configuration values: a field
    of an accent, of the default menu colour or of a layout item that is no
    number ends in the [ValueError] or [TypeError] of [int]; a layout that
    is no sequence ends in the [TypeError] of [len]; a system entry or a
    [defaults] entry that is no object ends in an [AttributeError]. *)
Theorem resolvers_raise_on_malformed_config :
  system_accent (dict [("snes", dict [("accent", dict [("br", JStr "bright")])])])
    (Some "snes") = Raise ValueError
  /\ default_menu_color
       (dict [("defaults", dict [("menu_color", dict [("r", JNull)])])])
     = Raise TypeError
  /\ lookup_start_layout
       (dict [("snes", dict [("start_layout", JList [dict [("r", JStr "x")]])])])
       (Some "snes") (Some "Foo") = Raise ValueError
  /\ lookup_start_layout (dict [("snes", dict [("start_layout", JInt 5)])])
       (Some "snes") (Some "Foo") = Raise TypeError
  /\ system_accent (dict [("snes", JList [JInt 1])]) (Some "snes")
     = Raise AttributeError
  /\ default_menu_color (dict [("defaults", JStr "blue")]) = Raise AttributeError.
Proof. repeat split; vm_compute; reflexivity. Qed.

(** C5, the part that fails. A string of the shape [#RRGGBB] whose digits
    are not hexadecimal is not turned into the zero tuple: [int(..., 16)]
    raises [ValueError] out of [cols_from_layout]; and where [int] accepts
    a sign or a blank in place of a digit, the tuple is not zero either. *)
Theorem malformed_hex_not_zeroed :
  color_of_item (JStr "#GGGGGG") = Raise ValueError
  /\ cols_from_layout (JList [JStr "#GGGGGG"]) = Raise ValueError
  /\ lookup_start_layout
       (dict [("snes", dict [("start_layout", JList [JStr "#12345Z:10"])])])
       (Some "snes") (Some "Foo") = Raise ValueError
  /\ color_of_item (JStr "#+1-2 3") = Ok (3, -2, 1, 64).
Proof. repeat split; vm_compute; reflexivity. Qed.

(** C5, the parts that hold, on the strings of the specification. *)
Example hex_with_brightness :
  color_of_item (JStr "#00FF80:10") = Ok (128, 255, 0, 10).
Proof. vm_compute. reflexivity. Qed.

Example hex_without_brightness :
  color_of_item (JStr "#00FF80") = Ok (128, 255, 0, 64).
Proof. vm_compute. reflexivity. Qed.

Example hex_wrong_shape :
  map color_of_item [JStr "00FF80"; JStr "#FFF"; JStr "#00FF800"; JStr ""; JStr "red"]
  = repeat (Ok (0, 0, 0, 0)) 5.
Proof. vm_compute. reflexivity. Qed.

(** ** Colour strings *)


(** What the tests of the parser answer on a hexadecimal digit. *)
Lemma hex_digit_class (c : ascii) (d : Z) :
  PyStr.digit 16 c = Some d ->
  PyStr.isspace c = false /\ PyStr.int_blank c = false
  /\ Ascii.eqb c ":" = false /\ Ascii.eqb c "_" = false
  /\ Ascii.eqb c "+" = false /\ Ascii.eqb c "-" = false
  /\ Ascii.eqb c "x" = false /\ Ascii.eqb c "X" = false
  /\ 0 <= d < 16.
Proof.
  destruct c as [[] [] [] [] [] [] [] []]; intros H; vm_compute in H;
    try discriminate; injection H as <-; vm_compute; intuition congruence.
Qed.

(** Two hexadecimal digits read in base 16. *)
Lemma int_of_hex_pair (c1 c2 : ascii) (d1 d2 : Z) :
  PyStr.digit 16 c1 = Some d1 -> PyStr.digit 16 c2 = Some d2 ->
  PyStr.int_of_string 16 (String c1 (String c2 EmptyString)) = Some (16 * d1 + d2).
Proof.
  intros H1 H2.
  destruct (hex_digit_class c1 d1 H1) as (_ & Hb1 & _ & _ & Hp1 & Hm1 & _ & _ & _).
  destruct (hex_digit_class c2 d2 H2) as (_ & _ & _ & Hu2 & _ & _ & Hx2 & HX2 & _).
  unfold PyStr.int_of_string, PyStr.split_sign, PyStr.skip_prefix. simpl.
  rewrite Hb1, Hp1, Hm1, Hx2, HX2. rewrite andb_false_r.
  rewrite H1. simpl PyStr.digits_tail. rewrite Hu2, H2. simpl. f_equal. lia.
Qed.

Lemma rstrip_cons (c : ascii) (s : string) :
  PyStr.rstrip s = s -> (s = EmptyString -> PyStr.isspace c = false) ->
  PyStr.rstrip (String c s) = String c s.
Proof.
  intros Hs Hc. simpl. rewrite Hs.
  destruct s; [rewrite Hc|]; reflexivity.
Qed.

Lemma split1_no_sep (sep : ascii) (s : string) :
  PyStr.all_chars (fun c => negb (Ascii.eqb c sep)) s = true ->
  PyStr.split1 sep s = None.
Proof.
  induction s as [|c s IH]; simpl; [reflexivity|].
  intros H. apply andb_true_iff in H as [Hc Hs].
  apply negb_true_iff in Hc. rewrite Hc, (IH Hs). reflexivity.
Qed.

Section HexColor.

Variables (c1 c2 c3 c4 c5 c6 : ascii) (d1 d2 d3 d4 d5 d6 : Z).
Hypothesis (H1 : PyStr.digit 16 c1 = Some d1) (H2 : PyStr.digit 16 c2 = Some d2).
Hypothesis (H3 : PyStr.digit 16 c3 = Some d3) (H4 : PyStr.digit 16 c4 = Some d4).
Hypothesis (H5 : PyStr.digit 16 c5 = Some d5) (H6 : PyStr.digit 16 c6 = Some d6).

Lemma hex_text_rstrip (tail : string) :
  PyStr.rstrip tail = tail -> PyStr.rstrip (hex_text c1 c2 c3 c4 c5 c6 tail) = hex_text c1 c2 c3 c4 c5 c6 tail.
Proof using H6.
  intros Ht. unfold hex_text.
  destruct (hex_digit_class c6 d6 H6) as (Hs6 & _).
  repeat (apply rstrip_cons; [|discriminate]).
  apply rstrip_cons; [exact Ht | intros _; exact Hs6].
Qed.

Lemma hex_text_color (br : Z) :
  (if String.prefix "#" (hex_text c1 c2 c3 c4 c5 c6 EmptyString)
      && Nat.eqb (String.length (hex_text c1 c2 c3 c4 c5 c6 EmptyString)) 7
   then
     match PyStr.int_of_string 16 (PyStr.slice (hex_text c1 c2 c3 c4 c5 c6 EmptyString) 1 3) with
     | None => Raise ValueError
     | Some r =>
         match PyStr.int_of_string 16 (PyStr.slice (hex_text c1 c2 c3 c4 c5 c6 EmptyString) 3 5) with
         | None => Raise ValueError
         | Some g =>
             match PyStr.int_of_string 16 (PyStr.slice (hex_text c1 c2 c3 c4 c5 c6 EmptyString) 5 7) with
             | None => Raise ValueError
             | Some b => Ok (b, g, r, _clamp (Z.min br BRIGHT_LIMIT))
             end
         end
     end
   else Ok (0, 0, 0, 0))
  = Ok (16 * d5 + d6, 16 * d3 + d4, 16 * d1 + d2, _clamp (Z.min br BRIGHT_LIMIT)).
Proof using H1 H2 H3 H4 H5 H6.
  unfold hex_text, PyStr.slice. simpl String.prefix. simpl String.length.
  simpl String.substring. simpl andb. cbv iota.
  rewrite (int_of_hex_pair c1 c2 d1 d2 H1 H2), (int_of_hex_pair c3 c4 d3 d4 H3 H4),
    (int_of_hex_pair c5 c6 d5 d6 H5 H6).
  reflexivity.
Qed.

(** X1. A string [#RRGGBB] of six hexadecimal digits gives the tuple
    [(0xBB, 0xGG, 0xRR, 64)]; followed by [:] and a text [brs] (that no
    blank ends), it gives the brightness [_clamp(min(int(brs), BRIGHT_LIMIT))],
    with 64 in place of [int(brs)] when [brs] is no decimal number. *)
Theorem hex_color_parse (brs : string) :
  PyStr.rstrip brs = brs ->
  color_of_item (JStr (hex_text c1 c2 c3 c4 c5 c6 EmptyString))
  = Ok (16 * d5 + d6, 16 * d3 + d4, 16 * d1 + d2, 64)
  /\ color_of_item (JStr (hex_text c1 c2 c3 c4 c5 c6 (String ":" brs)))
     = Ok (16 * d5 + d6, 16 * d3 + d4, 16 * d1 + d2,
           _clamp (Z.min (default 64 (PyStr.int_of_string 10 brs)) BRIGHT_LIMIT)).
Proof using H1 H2 H3 H4 H5 H6.
  intros Hbrs.
  destruct (hex_digit_class c1 d1 H1) as (_ & _ & Hc1 & _).
  destruct (hex_digit_class c2 d2 H2) as (_ & _ & Hc2 & _).
  destruct (hex_digit_class c3 d3 H3) as (_ & _ & Hc3 & _).
  destruct (hex_digit_class c4 d4 H4) as (_ & _ & Hc4 & _).
  destruct (hex_digit_class c5 d5 H5) as (_ & _ & Hc5 & _).
  destruct (hex_digit_class c6 d6 H6) as (_ & _ & Hc6 & _).
  split.
  - unfold color_of_item, PyStr.strip.
    change (PyStr.lstrip (hex_text c1 c2 c3 c4 c5 c6 EmptyString)) with (hex_text c1 c2 c3 c4 c5 c6 EmptyString).
    rewrite (hex_text_rstrip EmptyString eq_refl).
    replace (PyStr.split1 ":" (hex_text c1 c2 c3 c4 c5 c6 EmptyString)) with (@None (string * string))
      by (unfold hex_text; simpl; rewrite Hc1, Hc2, Hc3, Hc4, Hc5, Hc6; reflexivity).
    exact (hex_text_color 64).
  - unfold color_of_item, PyStr.strip.
    change (PyStr.lstrip (hex_text c1 c2 c3 c4 c5 c6 (String ":" brs))) with (hex_text c1 c2 c3 c4 c5 c6 (String ":" brs)).
    rewrite (hex_text_rstrip (String ":" brs)
               (rstrip_cons ":" brs Hbrs (fun _ => eq_refl))).
    replace (PyStr.split1 ":" (hex_text c1 c2 c3 c4 c5 c6 (String ":" brs)))
      with (Some (hex_text c1 c2 c3 c4 c5 c6 EmptyString, brs))
      by (unfold hex_text; simpl; rewrite Hc1, Hc2, Hc3, Hc4, Hc5, Hc6; reflexivity).
    destruct (PyStr.int_of_string 10 brs) as [n|]; simpl default;
      apply hex_text_color.
Qed.

End HexColor.

Lemma hex_color_parse_witness :
  color_of_item (JStr "#00FF80") = Ok (128, 255, 0, 64)
  /\ color_of_item (JStr "#00FF80:10") = Ok (128, 255, 0, 10).
Proof.
  exact (hex_color_parse "0" "0" "F" "F" "8" "0" 0 0 15 15 8 0
           eq_refl eq_refl eq_refl eq_refl eq_refl eq_refl "10" eq_refl).
Defined.

(** X2. When the colour part of a colour string (the stripped text, up to
    its first colon when it has one) does not start with [#] or is not 7
    characters long, the tuple is (0, 0, 0, 0). *)
Theorem wrong_shape_zero (item : string) :
  let s := match PyStr.split1 ":" (PyStr.strip item) with
           | Some (s, _) => s
           | None => PyStr.strip item
           end in
  String.prefix "#" s && Nat.eqb (String.length s) 7 = false ->
  color_of_item (JStr item) = Ok (0, 0, 0, 0).
Proof.
  unfold color_of_item.
  destruct (PyStr.split1 ":" (PyStr.strip item)) as [[s brs]|]; simpl;
    intros H; rewrite H; reflexivity.
Qed.

Lemma wrong_shape_zero_witness :
  color_of_item (JStr " #FFF:200 ") = Ok (0, 0, 0, 0).
Proof. apply (wrong_shape_zero " #FFF:200 "). reflexivity. Defined.

(** ** Size of a layout *)

Lemma mapR_map {A B C} (f : B -> result C) (g : A -> B) (l : list A) :
  mapR f (map g l) = mapR (fun a => f (g a)) l.
Proof.
  induction l as [|a l IH]; simpl; [reflexivity|]. rewrite IH. reflexivity.
Qed.

(** Reading the first items of a list by index is reading its prefix. *)
Lemma mapR_getindex (f : json -> result color) (l : list json) (n : nat) :
  mapR (fun i => rbind (Py.getindex (JList l) i) (fun item => f item))
       (seq 0 (Nat.min n (List.length l)))
  = mapR f (firstn n l).
Proof.
  revert n. induction l as [|x l IH]; intros [|n]; simpl; try reflexivity.
  rewrite <- seq_shift, mapR_map.
  rewrite <- (IH n). reflexivity.
Qed.

(** X3. A layout that is a list becomes exactly [NUM_LEDS] tuples: the colours
    of its first [NUM_LEDS] items, then zero tuples up to [NUM_LEDS]. *)
Theorem cols_from_layout_list (items : list json) (cs : frame) :
  mapR color_of_item (firstn NUM_LEDS items) = Ok cs ->
  cols_from_layout (JList items)
  = Ok (cs ++ repeat (0, 0, 0, 0) (NUM_LEDS - List.length cs))
  /\ List.length (cs ++ repeat (0, 0, 0, 0) (NUM_LEDS - List.length cs)) = NUM_LEDS.
Proof.
  intros H. unfold cols_from_layout.
  change (Py.len (JList items)) with (Ok (List.length items)).
  unfold rbind at 1. cbv beta iota.
  rewrite (mapR_getindex color_of_item items NUM_LEDS), H.
  split; [reflexivity|].
  apply mapR_length in H. rewrite length_firstn in H.
  rewrite length_app, repeat_length. lia.
Qed.

Lemma cols_from_layout_list_witness :
  cols_from_layout
    (JList [JStr "#010203"; JNull; JStr "#040506:9"; JInt 1; JInt 2; JInt 3;
            JInt 4; JStr "#GGGGGG"; JStr "#070809"])
  = Ok [(3, 2, 1, 64); (0, 0, 0, 0); (6, 5, 4, 9); (0, 0, 0, 0); (0, 0, 0, 0);
        (0, 0, 0, 0); (0, 0, 0, 0)]
  /\ cols_from_layout (JList [JStr "#010203"])
     = Ok [(3, 2, 1, 64); (0, 0, 0, 0); (0, 0, 0, 0); (0, 0, 0, 0); (0, 0, 0, 0);
           (0, 0, 0, 0); (0, 0, 0, 0)].
Proof.
  split.
  - apply (cols_from_layout_list
             [JStr "#010203"; JNull; JStr "#040506:9"; JInt 1; JInt 2; JInt 3;
              JInt 4; JStr "#GGGGGG"; JStr "#070809"]
             [(3, 2, 1, 64); (0, 0, 0, 0); (6, 5, 4, 9); (0, 0, 0, 0); (0, 0, 0, 0);
              (0, 0, 0, 0); (0, 0, 0, 0)]).
    vm_compute. reflexivity.
  - apply (cols_from_layout_list [JStr "#010203"] [(3, 2, 1, 64)]).
    vm_compute. reflexivity.
Defined.

(** ** Fallbacks of the resolution *)

(** X4. Without an entry for the system there is no layout; with an entry that
    has a [start_layout] and no [rom_overrides], the layout of the system is
    the one converted. *)
Theorem lookup_start_layout_fallback
    (c sc : gmap string json) (sk rk : option string) (sys_layout : json) :
  (c !! Py.key_or_empty sk = None ->
   lookup_start_layout (JDict c) sk rk = Ok None)
  /\ (c !! Py.key_or_empty sk = Some (JDict sc) ->
      sc !! "rom_overrides" = None ->
      sc !! "start_layout" = Some sys_layout ->
      lookup_start_layout (JDict c) sk rk
      = rbind (cols_from_layout sys_layout) (fun cols => Ok (Some cols))).
Proof.
  split.
  - intros Hsys. unfold lookup_start_layout, and_then. simpl. rewrite Hsys. simpl.
    rewrite map_size_empty. reflexivity.
  - intros Hsys Hro Hsl.
    pose proof (truthy_dict_lookup sc _ _ Hsl) as Hsc. simpl in Hsc.
    unfold lookup_start_layout, and_then. simpl. rewrite Hsys. simpl.
    rewrite Hsc, Hro. simpl. rewrite Hsl. simpl.
    destruct (cols_from_layout sys_layout); reflexivity.
Qed.

Lemma lookup_start_layout_fallback_witness :
  lookup_start_layout (dict [("snes", dict [("start_layout", JList [JStr "#010203"])])])
    (Some "nes") (Some "Foo") = Ok None
  /\ lookup_start_layout (dict [("snes", dict [("start_layout", JList [JStr "#010203"])])])
       (Some "snes") (Some "Foo")
     = Ok (Some [(3, 2, 1, 64); (0, 0, 0, 0); (0, 0, 0, 0); (0, 0, 0, 0);
                 (0, 0, 0, 0); (0, 0, 0, 0); (0, 0, 0, 0)]).
Proof.
  split.
  - apply (proj1 (lookup_start_layout_fallback
                    (list_to_map [("snes", dict [("start_layout", JList [JStr "#010203"])])])
                    ∅ (Some "nes") (Some "Foo") JNull)).
    vm_compute. reflexivity.
  - unfold dict at 1.
    rewrite (proj2 (lookup_start_layout_fallback
                      (list_to_map [("snes", dict [("start_layout", JList [JStr "#010203"])])])
                      (list_to_map [("start_layout", JList [JStr "#010203"])])
                      (Some "snes") (Some "Foo") (JList [JStr "#010203"])));
      vm_compute; reflexivity.
Defined.

(** ** More of the dispatcher *)

Section Scenarios.

Variables (fuel : nat) (E : env).

(** X5. An [off] event writes one frame whose [4 * NUM_LEDS] payload bytes are
    all zero, whatever the state of the daemon was, and leaves the idle
    generator as it was. *)
Theorem off_event_frame (evt : json) (s : daemon) :
  event_record evt = true ->
  event_name evt = Ok "off" ->
  exists bytes,
    dispatch fuel E evt s = (Ok tt, set_last_idle 0 (add_written bytes s))
    /\ map byte_val bytes = map byte_val HEADER ++ repeat 0 (4 * NUM_LEDS).
Proof using Type.
  intros Hrec Hname.
  destruct (event_record_keys E evt Hrec) as (sk & rk & Hsk & Hrk).
  destruct (send_colors_Ok all_off s) as (payload & Hsend & Hval).
  exists (HEADER ++ payload). split.
  - unfold dispatch, bind, liftR. rewrite Hname.
    unfold handle, bind, liftR. name_tests. rewrite Hsk, Hrk. cbv beta iota.
    rewrite Hsend. reflexivity.
  - rewrite map_app, Hval. reflexivity.
Qed.

(** X6. A [reload-config] event whose file decodes to an object makes that
    object the configuration; when the file decodes to another value the
    configuration becomes the empty dict. Either way the configuration is a
    dict afterwards, and nothing is written. *)
Theorem reload_config_loads (evt : json) (s : daemon) (v : json) :
  systems_json E = Some v ->
  event_name evt = Ok "reload-config" ->
  dispatch fuel E evt s
  = (Ok tt, set_last_idle 0
              (set_cfg (match v with JDict d => JDict d | _ => JDict ∅ end) s)).
Proof using Type.
  intros Hfile Hname.
  unfold dispatch, bind, liftR. rewrite Hname.
  unfold handle. name_tests. unfold load_config. rewrite Hfile.
  destruct v; reflexivity.
Qed.

End Scenarios.

Lemma off_event_frame_witness :
  exists bytes,
    dispatch 0 env_bare (dict [("event", JStr "OFF")]) st_later
    = (Ok tt, set_last_idle 0 (add_written bytes st_later))
    /\ map byte_val bytes = map byte_val HEADER ++ repeat 0 (4 * NUM_LEDS).
Proof.
  apply (off_event_frame 0 env_bare (dict [("event", JStr "OFF")]) st_later);
    vm_compute; reflexivity.
Defined.

Lemma reload_config_loads_witness :
  _cfg (snd (dispatch 0
               (env_with_file (dict [("snes", dict [("accent", dict [("g", JInt 5)])])]))
               (dict [("event", JStr "reload-config")]) st_fresh))
  = dict [("snes", dict [("accent", dict [("g", JInt 5)])])]
  /\ _cfg (snd (dispatch 0 (env_with_file (JList [JInt 1]))
                  (dict [("event", JStr "reload-config")]) st_fresh))
     = JDict ∅.
Proof.
  split.
  - rewrite (reload_config_loads 0
               (env_with_file (dict [("snes", dict [("accent", dict [("g", JInt 5)])])]))
               (dict [("event", JStr "reload-config")]) st_fresh
               (dict [("snes", dict [("accent", dict [("g", JInt 5)])])]) eq_refl);
      [reflexivity | vm_compute; reflexivity].
  - rewrite (reload_config_loads 0 (env_with_file (JList [JInt 1]))
               (dict [("event", JStr "reload-config")]) st_fresh
               (JList [JInt 1]) eq_refl);
      [reflexivity | vm_compute; reflexivity].
Defined.

(** ** Wipe *)

(** X7. [wipe_frames] yields [NUM_LEDS] frames; in frame [k] the LEDs 0 to [k]
    have the colour and the others are off. *)
Theorem wipe_frames_shape (c : color) :
  wipe_frames c
  = map (fun k : nat =>
           Ok (repeat c (k + 1) ++ repeat (0, 0, 0, 0) (NUM_LEDS - (k + 1))))
        (seq 0 NUM_LEDS)
  /\ List.length (wipe_frames c) = NUM_LEDS.
Proof.
  split.
  - unfold wipe_frames, all_off, NUM_LEDS. simpl. reflexivity.
  - unfold wipe_frames. rewrite length_map, length_seq. reflexivity.
Qed.

(** ** Events outside the data model *)

(** An event whose [system] or [rom] field is no string is no event record:
    the lookup of the key raises before the name is looked at, whatever the
    name is (other than [reload-config]). *)
Example ill_typed_event_raises :
  dispatch 0 env_bare (dict [("event", JStr "screensaver"); ("system", JInt 5)]) st_fresh
  = (Raise AttributeError, st_fresh)
  /\ dispatch 0 env_bare (dict [("event", JStr "screensaver"); ("rom", JInt 5)]) st_fresh
     = (Raise TypeError, st_fresh)
  /\ dispatch 0 env_bare (JInt 5) st_fresh = (Raise AttributeError, st_fresh).
Proof. repeat split; vm_compute; reflexivity. Qed.

(** ** Paths and keys *)

Lemma length_append (a b : string) :
  String.length (String.append a b) = (String.length a + String.length b)%nat.
Proof. induction a as [|c a IH]; simpl; [reflexivity | rewrite IH; reflexivity]. Qed.

Lemma substring_0_all (s : string) : String.substring 0 (String.length s) s = s.
Proof. induction s as [|c s IH]; simpl; [reflexivity | rewrite IH; reflexivity]. Qed.

Lemma substring_0_prefix (a b : string) :
  String.substring 0 (String.length a) (String.append a b) = a.
Proof.
  induction a as [|c a IH]; simpl; [destruct b; reflexivity | rewrite IH; reflexivity].
Qed.

Lemma substring_skip (a b : string) (m : nat) :
  String.substring (String.length a) m (String.append a b) = String.substring 0 m b.
Proof. induction a as [|c a IH]; simpl; [reflexivity | exact IH]. Qed.

Lemma no_char_substring (c : ascii) (s : string) (n m : nat) :
  no_char c s = true -> no_char c (String.substring n m s) = true.
Proof.
  unfold no_char. revert n m. induction s as [|d s IH]; intros n m H.
  - destruct n, m; reflexivity.
  - simpl in H. apply andb_true_iff in H as [Hd Hs].
    destruct n as [|n]; simpl.
    + destruct m as [|m]; simpl; [reflexivity|]. rewrite Hd. apply IH, Hs.
    + apply IH, Hs.
Qed.

Lemma no_char_append (c : ascii) (a b : string) :
  no_char c (String.append a b) = no_char c a && no_char c b.
Proof.
  unfold no_char. induction a as [|d a IH]; [reflexivity|].
  change (String.append (String d a) b) with (String d (String.append a b)).
  simpl. rewrite IH. apply andb_assoc.
Qed.

Lemma rfind_from_none (c : ascii) (s : string) (i f : Z) :
  no_char c s = true -> PyStr.rfind_from c s i f = f.
Proof.
  unfold no_char. revert i f. induction s as [|d s IH]; intros i f H; simpl.
  - reflexivity.
  - simpl in H. apply andb_true_iff in H as [Hd Hs].
    apply negb_true_iff in Hd. rewrite Hd. apply IH, Hs.
Qed.

(** The last [c] of a string that ends in [c] followed by a text without. *)
Lemma rfind_from_last (c : ascii) (a b : string) (i f : Z) :
  no_char c b = true ->
  PyStr.rfind_from c (String.append a (String c b)) i f
  = i + Z.of_nat (String.length a).
Proof.
  intros Hb. revert i f. induction a as [|d a IH]; intros i f; simpl.
  - rewrite Ascii.eqb_refl, (rfind_from_none c b _ _ Hb). lia.
  - rewrite IH. lia.
Qed.

(** A string has no [c], or a last [c]. *)
Lemma split_last (c : ascii) (s : string) :
  no_char c s = true
  \/ exists a b, s = String.append a (String c b) /\ no_char c b = true.
Proof.
  induction s as [|d s [IH|(a & b & -> & Hb)]].
  - left. reflexivity.
  - destruct (Ascii.eqb_spec d c) as [->|Hne].
    + right. exists EmptyString, s. split; [reflexivity | exact IH].
    + left. unfold no_char in *. simpl. rewrite IH.
      apply Ascii.eqb_neq in Hne. rewrite Hne. reflexivity.
  - right. exists (String d a), b. split; [reflexivity | exact Hb].
Qed.

Lemma basename_plain (p : string) : no_char "/" p = true -> PyStr.basename p = p.
Proof.
  intros H. unfold PyStr.basename, PyStr.rfind, PyStr.drop.
  rewrite (rfind_from_none "/" p _ _ H). simpl. rewrite Nat.sub_0_r.
  apply substring_0_all.
Qed.

Lemma basename_after_slash (a b : string) :
  no_char "/" b = true -> PyStr.basename (String.append a (String "/" b)) = b.
Proof.
  intros H. unfold PyStr.basename, PyStr.rfind, PyStr.drop.
  rewrite (rfind_from_last "/" a b _ _ H).
  assert (Hassoc : String.append a (String "/" b)
                   = String.append (String.append a "/") b).
  { clear H. induction a as [|d a IH]; [reflexivity|].
    change (String d (String.append a (String "/" b))
            = String d (String.append (String.append a "/") b)).
    f_equal. exact IH. }
  assert (Hlen : Z.to_nat (0 + Z.of_nat (String.length a) + 1)
                 = String.length (String.append a "/")).
  { rewrite length_append. simpl. lia. }
  rewrite Hlen, Hassoc, substring_skip, length_append, Nat.add_comm, Nat.add_sub.
  apply substring_0_all.
Qed.

Lemma basename_no_slash (p : string) : no_char "/" (PyStr.basename p) = true.
Proof.
  destruct (split_last "/" p) as [H|(a & b & -> & Hb)].
  - rewrite (basename_plain p H). exact H.
  - rewrite (basename_after_slash a b Hb). exact Hb.
Qed.

Lemma splitext_root_no_slash (p : string) :
  no_char "/" p = true -> no_char "/" (PyStr.splitext_root p) = true.
Proof.
  intros H. unfold PyStr.splitext_root, PyStr.slice.
  destruct (_ && _); [apply no_char_substring, H | exact H].
Qed.

(** X8. The ROM key never holds a slash: whatever the event and the
    launcher state are, a key that [get_rom_key] returns is a file name
    and no path. *)
Theorem rom_key_no_slash (E : env) (evt : json) (key : string) :
  get_rom_key E evt = Ok key -> no_char "/" key = true.
Proof.
  unfold get_rom_key. intros H.
  apply rbind_Ok in H as (rom & _ & H). apply rbind_Ok in H as (rp & _ & H).
  destruct (if Py.truthy rp then rp else _); try discriminate.
  injection H as <-. apply splitext_root_no_slash, basename_no_slash.
Qed.

Lemma rom_key_no_slash_witness :
  get_rom_key env_bare (dict [("rompath", JStr "/roms/a.b/c.d/")]) = Ok ""
  /\ get_rom_key env_bare (dict [("rom", JStr "/roms/a.b/Foo")]) = Ok "Foo"
  /\ no_char "/" "Foo" = true.
Proof.
  split; [vm_compute; reflexivity|]. split; [vm_compute; reflexivity|].
  apply (rom_key_no_slash env_bare (dict [("rom", JStr "/roms/a.b/Foo")]) "Foo").
  vm_compute. reflexivity.
Defined.

(** X9. For a ROM path [dir/name.ext], where [name] holds no slash and not
    only dots and [ext] holds no slash and no dot, the ROM key of the event
    is [name]: the directory and the last extension are dropped, whatever
    [dir] is. *)
Theorem rom_key_of_file (E : env) (e : gmap string json) (dir name ext : string) :
  e !! "rom"
  = Some (JStr (String.append dir (String "/" (String.append name (String "." ext))))) ->
  no_char "/" name = true ->
  PyStr.all_chars (fun c => Ascii.eqb c ".") name = false ->
  no_char "/" ext = true -> no_char "." ext = true ->
  get_rom_key E (JDict e) = Ok name.
Proof.
  intros Hrom Hname Hdots Hext Hext'.
  assert (Hbase : no_char "/" (String.append name (String "." ext)) = true).
  { rewrite no_char_append, Hname. simpl. exact Hext. }
  set (p := String.append dir (String "/" (String.append name (String "." ext)))) in *.
  assert (Ht : Py.truthy (JStr p) = true).
  { unfold p. cbn [Py.truthy]. rewrite length_append. cbn [String.length].
    rewrite Nat.add_succ_r. reflexivity. }
  unfold get_rom_key, Py.or_else. cbn [Py.get rbind]. rewrite Hrom.
  cbn [default from_option id rbind]. rewrite Ht. cbn [rbind]. rewrite Ht.
  unfold p. rewrite (basename_after_slash dir _ Hbase).
  unfold PyStr.splitext_root, PyStr.rfind.
  rewrite (rfind_from_none "/" _ _ _ Hbase), (rfind_from_last "." name ext _ _ Hext').
  unfold PyStr.slice.
  replace (Z.to_nat (-1 + 1)) with 0%nat by reflexivity.
  replace (Z.to_nat (0 + Z.of_nat (String.length name) - (-1 + 1)))
    with (String.length name) by lia.
  rewrite substring_0_prefix, Hdots.
  replace (0 + Z.of_nat (String.length name) >? -1) with true
    by (symmetry; apply Z.gtb_lt; lia).
  cbn [negb andb]. replace (Z.to_nat 0) with 0%nat by reflexivity.
  replace (Z.to_nat (0 + Z.of_nat (String.length name) - 0))
    with (String.length name) by lia.
  rewrite substring_0_prefix. reflexivity.
Qed.

Lemma rom_key_of_file_witness :
  get_rom_key env_bare (JDict evt_game_start) = Ok "Foo".
Proof.
  apply (rom_key_of_file env_bare evt_game_start "/roms/snes" "Foo" "sfx");
    reflexivity.
Defined.

(** ** The launcher state *)

Lemma append_cons (c : ascii) (a b : string) :
  String.append (String c a) b = String c (String.append a b).
Proof. reflexivity. Qed.

Lemma lstrip_idem (s : string) : PyStr.lstrip (PyStr.lstrip s) = PyStr.lstrip s.
Proof.
  induction s as [|c s IH]; [reflexivity|]. simpl.
  destruct (PyStr.isspace c) eqn:Hc; [exact IH|]. simpl. rewrite Hc. reflexivity.
Qed.

Lemma rstrip_step (c : ascii) (s : string) :
  PyStr.rstrip (String c s)
  = match PyStr.rstrip s with
    | EmptyString => if PyStr.isspace c then EmptyString else String c EmptyString
    | r => String c r
    end.
Proof. reflexivity. Qed.

Lemma rstrip_idem (s : string) : PyStr.rstrip (PyStr.rstrip s) = PyStr.rstrip s.
Proof.
  induction s as [|c s IH]; [reflexivity|]. rewrite rstrip_step.
  destruct (PyStr.rstrip s) as [|d r] eqn:Hr.
  - destruct (PyStr.isspace c) eqn:Hc; [reflexivity|].
    rewrite rstrip_step. simpl. rewrite Hc. reflexivity.
  - rewrite rstrip_step, IH. reflexivity.
Qed.

Lemma lstrip_rstrip (s : string) :
  PyStr.lstrip (PyStr.rstrip s) = PyStr.rstrip (PyStr.lstrip s).
Proof.
  induction s as [|c s IH]; [reflexivity|]. rewrite rstrip_step.
  destruct (PyStr.isspace c) eqn:Hc.
  - simpl PyStr.lstrip at 2. rewrite Hc, <- IH.
    destruct (PyStr.rstrip s) as [|d r]; [reflexivity|].
    simpl. rewrite Hc. reflexivity.
  - simpl PyStr.lstrip at 2. rewrite Hc, rstrip_step.
    destruct (PyStr.rstrip s) as [|d r]; simpl; rewrite Hc; reflexivity.
Qed.

Lemma strip_lstrip (s : string) : PyStr.strip (PyStr.lstrip s) = PyStr.strip s.
Proof. unfold PyStr.strip. rewrite lstrip_idem. reflexivity. Qed.

Lemma strip_rstrip (s : string) : PyStr.strip (PyStr.rstrip s) = PyStr.strip s.
Proof. unfold PyStr.strip. rewrite lstrip_rstrip, rstrip_idem. reflexivity. Qed.

(** Stripping a line [k=v] strips [k] on the left and [v] on the right. *)
Lemma strip_assignment (k v : string) :
  PyStr.strip (String.append k (String "=" v))
  = String.append (PyStr.lstrip k) (String "=" (PyStr.rstrip v)).
Proof.
  unfold PyStr.strip.
  assert (Hl : PyStr.lstrip (String.append k (String "=" v))
               = String.append (PyStr.lstrip k) (String "=" v)).
  { induction k as [|c k IH]; [reflexivity|]. rewrite append_cons. simpl.
    destruct (PyStr.isspace c); [exact IH | reflexivity]. }
  rewrite Hl. generalize (PyStr.lstrip k). intros a.
  induction a as [|c a IH].
  - change (String.append EmptyString (String "=" v)) with (String "=" v).
    rewrite rstrip_step. destruct (PyStr.rstrip v); reflexivity.
  - rewrite append_cons, rstrip_step, IH.
    destruct a; reflexivity.
Qed.

Lemma split1_at (c : ascii) (a b : string) :
  no_char c a = true -> PyStr.split1 c (String.append a (String c b)) = Some (a, b).
Proof.
  unfold no_char. induction a as [|d a IH]; intros H.
  - simpl. rewrite Ascii.eqb_refl. reflexivity.
  - simpl in H. apply andb_true_iff in H as [Hd Ha]. apply negb_true_iff in Hd.
    rewrite append_cons. simpl. rewrite Hd, (IH Ha). reflexivity.
Qed.

Lemma contains_char (c : ascii) (s : string) :
  PyStr.contains (String c EmptyString) s = negb (no_char c s).
Proof.
  unfold no_char. induction s as [|d s IH]; [reflexivity|].
  simpl. rewrite IH.
  destruct (Ascii.ascii_dec c d) as [->|Hne].
  - rewrite Ascii.eqb_refl. destruct s; reflexivity.
  - apply not_eq_sym in Hne. apply Ascii.eqb_neq in Hne. rewrite Hne. reflexivity.
Qed.

Lemma no_char_lstrip (c : ascii) (s : string) :
  no_char c s = true -> no_char c (PyStr.lstrip s) = true.
Proof.
  unfold no_char. induction s as [|d s IH]; [reflexivity|]. simpl. intros H.
  destruct (PyStr.isspace d); [|exact H].
  apply andb_true_iff in H as [_ H]. apply IH, H.
Qed.

(** X10. The launcher state is read line by line: a line [k=v] (with the
    first [=] after [k]) binds the stripped [k] to the stripped [v],
    replacing what an earlier line bound to it, and a line without [=]
    binds nothing. *)
Theorem read_es_state_line (E E' : env) (k v junk : string) :
  no_char "=" k = true -> no_char "=" junk = true ->
  (es_state E' = es_state E ++ [String.append k (String "=" v)] ->
   read_es_state E' = <[PyStr.strip k := PyStr.strip v]> (read_es_state E))
  /\ (es_state E' = es_state E ++ [junk] -> read_es_state E' = read_es_state E).
Proof.
  intros Hk Hjunk. unfold read_es_state. split; intros ->; rewrite foldl_app; simpl.
  - rewrite contains_char, no_char_append, Hk. simpl.
    rewrite strip_assignment, (split1_at "=" _ _ (no_char_lstrip "=" k Hk)).
    rewrite strip_lstrip, strip_rstrip. reflexivity.
  - rewrite contains_char, Hjunk. reflexivity.
Qed.

Lemma read_es_state_line_witness :
  read_es_state (env_with_state ["SystemId=nes"; " SystemId = SNES "]) !! "SystemId"
  = Some "SNES"
  /\ read_es_state (env_with_state ["SystemId=nes"; "no assignment here"]) !! "SystemId"
     = Some "nes".
Proof.
  destruct (read_es_state_line (env_with_state ["SystemId=nes"])
              (env_with_state ["SystemId=nes"; " SystemId = SNES "])
              " SystemId " " SNES " "" eq_refl eq_refl) as [H _].
  destruct (read_es_state_line (env_with_state ["SystemId=nes"])
              (env_with_state ["SystemId=nes"; "no assignment here"])
              "" "" "no assignment here" eq_refl eq_refl) as [_ H'].
  rewrite (H eq_refl), (H' eq_refl). split; vm_compute; reflexivity.
Defined.

(** X11. The system key of an event record is, in lower case, the first
    that is not empty of: the [system] field of the event, the [SystemId]
    of the launcher state, its [System]; and the empty string when all are
    missing or empty. *)
Theorem system_key_precedence (E : env) (e : gmap string json) :
  str_field e "system" = true ->
  get_system_key E (JDict e)
  = Ok (PyStr.lower
          (first_nonempty [str_of (e !! "system");
                           default EmptyString (read_es_state E !! "SystemId");
                           default EmptyString (read_es_state E !! "System")])).
Proof.
  unfold str_field, get_system_key. simpl.
  destruct (e !! "system") as [[| | | |sys| |]|]; try discriminate; intros _; simpl.
  - destruct sys as [|c sys]; simpl; [|reflexivity].
    destruct (read_es_state E !! "SystemId") as [[|c1 s1]|];
      destruct (read_es_state E !! "System") as [[|c2 s2]|]; reflexivity.
  - destruct (read_es_state E !! "SystemId") as [[|c1 s1]|];
      destruct (read_es_state E !! "System") as [[|c2 s2]|]; reflexivity.
Qed.

Lemma system_key_precedence_witness :
  get_system_key (env_with_state ["System=Mame"; "SystemId="])
    (dict [("event", JStr "menu"); ("system", JStr "")]) = Ok "mame"
  /\ get_system_key (env_with_state ["System=Mame"; "SystemId=NES"])
       (dict [("event", JStr "menu"); ("system", JStr "SNES")]) = Ok "snes".
Proof.
  unfold dict. split.
  - rewrite (system_key_precedence (env_with_state ["System=Mame"; "SystemId="])
               (list_to_map [("event", JStr "menu"); ("system", JStr "")]))
      by (vm_compute; reflexivity).
    vm_compute. reflexivity.
  - rewrite (system_key_precedence (env_with_state ["System=Mame"; "SystemId=NES"])
               (list_to_map [("event", JStr "menu"); ("system", JStr "SNES")]))
      by (vm_compute; reflexivity).
    vm_compute. reflexivity.
Defined.

(** ** Finding the serial port *)

Lemma compare_refl (s : string) : String.compare s s = Eq.
Proof. apply OrderedTypeEx.String_as_OT.cmp_eq. reflexivity. Qed.

Lemma leb_iff (a b : string) :
  String.leb a b = true <-> a = b \/ OrderedTypeEx.String_as_OT.lt a b.
Proof.
  unfold String.leb.
  destruct (String.compare a b) eqn:Hc.
  - apply OrderedTypeEx.String_as_OT.cmp_eq in Hc. tauto.
  - apply OrderedTypeEx.String_as_OT.cmp_lt in Hc. tauto.
  - split; [discriminate|]. intros [->|Hlt].
    + rewrite compare_refl in Hc. discriminate.
    + apply OrderedTypeEx.String_as_OT.cmp_lt in Hlt.
      unfold OrderedTypeEx.String_as_OT.cmp in Hlt. congruence.
Qed.

Lemma leb_trans (a b c : string) :
  String.leb a b = true -> String.leb b c = true -> String.leb a c = true.
Proof.
  rewrite !leb_iff. intros [->|H1] [->|H2]; auto.
  right. exact (OrderedTypeEx.String_as_OT.lt_trans _ _ _ H1 H2).
Qed.

Lemma key_leb_refl (k : bool * string) : key_leb k k = true.
Proof.
  unfold key_leb. rewrite Bool.eqb_reflx. apply leb_iff. auto.
Qed.

Lemma key_leb_total (k1 k2 : bool * string) :
  key_leb k1 k2 = true \/ key_leb k2 k1 = true.
Proof.
  destruct k1 as [[] s1], k2 as [[] s2]; unfold key_leb; simpl; auto;
    apply String.leb_total.
Qed.

Lemma key_leb_trans (k1 k2 k3 : bool * string) :
  key_leb k1 k2 = true -> key_leb k2 k3 = true -> key_leb k1 k3 = true.
Proof.
  destruct k1 as [[] s1], k2 as [[] s2], k3 as [[] s3]; unfold key_leb; simpl;
    try discriminate; auto; apply leb_trans.
Qed.

Section Sorting.

Context {A K : Type} (leb : K -> K -> bool) (key : A -> K).
Hypothesis Htotal : forall a b, leb a b = true \/ leb b a = true.
Hypothesis Htrans : forall a b c, leb a b = true -> leb b c = true -> leb a c = true.

Let le (x y : A) : Prop := leb (key x) (key y) = true.

Lemma insert_by_perm (x : A) (l : list A) :
  Permutation (insert_by leb key x l) (x :: l).
Proof using Type.
  induction l as [|y l IH]; simpl; [reflexivity|].
  destruct (leb (key x) (key y)); [reflexivity|].
  rewrite IH. apply perm_swap.
Qed.

Lemma sort_by_perm (l : list A) : Permutation (sort_by leb key l) l.
Proof using Type.
  induction l as [|x l IH]; simpl; [reflexivity|].
  rewrite insert_by_perm, IH. reflexivity.
Qed.

Lemma insert_by_sorted (x : A) (l : list A) :
  StronglySorted le l -> StronglySorted le (insert_by leb key x l).
Proof using Htotal Htrans.
  induction 1 as [|y l Hs IH Hy]; simpl.
  - repeat constructor.
  - destruct (leb (key x) (key y)) eqn:Hxy.
    + constructor; [constructor; assumption|].
      constructor; [exact Hxy|].
      eapply List.Forall_impl; [|exact Hy]. intros z Hz.
      exact (Htrans _ _ _ Hxy Hz).
    + constructor; [exact IH|].
      assert (Hyx : le y x).
      { destruct (Htotal (key x) (key y)) as [H|H]; [congruence | exact H]. }
      eapply Permutation.Permutation_Forall;
        [apply Permutation_sym, insert_by_perm | constructor; assumption].
Qed.

Lemma sort_by_sorted (l : list A) : StronglySorted le (sort_by leb key l).
Proof using Htotal Htrans.
  induction l as [|x l IH]; simpl; [constructor | apply insert_by_sorted, IH].
Qed.

(** The first element of a sorted list that passes a test is the least
    of those that pass it. *)
Lemma find_sorted_least (f : A -> bool) (l : list A) (p : A) :
  StronglySorted le l -> (forall a, le a a) ->
  List.find f l = Some p ->
  In p l /\ f p = true /\ forall q, In q l -> f q = true -> le p q.
Proof using Type.
  intros Hs Hrefl. induction Hs as [|y l Hs IH Hy]; simpl; [discriminate|].
  destruct (f y) eqn:Hfy.
  - intros [= <-]. split; [auto|]. split; [exact Hfy|].
    intros q [<-|Hq] _; [apply Hrefl|].
    rewrite List.Forall_forall in Hy. apply Hy, Hq.
  - intros Hfind. destruct (IH Hfind) as (Hin & Hfp & Hleast).
    split; [auto|]. split; [exact Hfp|].
    intros q [<-|Hq] Hfq; [congruence | apply Hleast; assumption].
Qed.

End Sorting.

Lemma candidates_in (P : ports) (p : string) :
  In p (candidates P) <-> by_id_path P p.
Proof.
  unfold candidates, by_id_path.
  rewrite (Permutation_in' (eq_refl p) (sort_by_perm key_leb port_key _)).
  destruct (by_id P) as [names|].
  - rewrite in_map_iff. split.
    + intros (name & <- & Hin). apply filter_In in Hin as [Hin Hc].
      exists names, name. auto.
    + intros (names' & name & [= <-] & Hin & Hc & ->).
      exists name. split; [reflexivity|]. apply filter_In. auto.
  - split; [intros [] | intros (names & name & Hn & _); discriminate].
Qed.

Lemma no_override_find (P : ports) :
  no_override P ->
  find_serial_port P
  = match List.find (serial_opens P) (candidates P) with
    | Some p => Some p
    | None => List.find (fun p => path_exists P p && serial_opens P p) ACM_PATHS
    end.
Proof.
  unfold no_override, find_serial_port.
  destruct (pm_port P) as [env|]; [|reflexivity].
  intros [H|H]; rewrite H; [reflexivity | rewrite andb_false_r; reflexivity].
Qed.

(** Without an override, when a by-id candidate opens, the port found is
    the candidate that opens with the least sort key. *)
Lemma find_least_candidate (P : ports) (q : string) :
  no_override P -> by_id_path P q -> serial_opens P q = true ->
  exists p,
    find_serial_port P = Some p /\ by_id_path P p /\ serial_opens P p = true
    /\ forall q', by_id_path P q' -> serial_opens P q' = true ->
                  key_leb (port_key p) (port_key q') = true.
Proof.
  intros Hno Hq Hopen. rewrite (no_override_find P Hno).
  destruct (List.find (serial_opens P) (candidates P)) as [p|] eqn:Hfind.
  - exists p. split; [reflexivity|].
    destruct (find_sorted_least key_leb port_key (serial_opens P) (candidates P) p)
      as (Hin & Hp & Hleast).
    + apply sort_by_sorted; [exact key_leb_total | exact key_leb_trans].
    + intros a. apply key_leb_refl.
    + exact Hfind.
    + split; [apply candidates_in, Hin|]. split; [exact Hp|].
      intros q' Hq' Hopen'. apply Hleast; [apply candidates_in, Hq' | exact Hopen'].
  - apply candidates_in in Hq.
    pose proof (find_none _ _ Hfind q Hq) as Hnone. congruence.
Qed.

(** X12. With no usable [PM_PORT], when some by-id name that passes the
    vendor test opens, the port returned is such a by-id path that opens,
    and among those that open it is the first in the sort order: paths that
    hold [if02] before the others, then by code point. *)
Theorem port_least_candidate (P : ports) (q : string) :
  no_override P -> by_id_path P q -> serial_opens P q = true ->
  exists p,
    find_serial_port P = Some p /\ by_id_path P p /\ serial_opens P p = true
    /\ forall q', by_id_path P q' -> serial_opens P q' = true ->
                  key_leb (port_key p) (port_key q') = true.
Proof. exact (find_least_candidate P q). Qed.

Lemma port_least_candidate_witness :
  find_serial_port
    (ports_of ["usb-Pimoroni_Picade_Max-if00"; "usb-Other-if02";
               "usb-Pimoroni_Picade_Max-if02"; "usb-Pimoroni_Picade_Max-if01"]
       ["/dev/serial/by-id/usb-Pimoroni_Picade_Max-if00";
        "/dev/serial/by-id/usb-Pimoroni_Picade_Max-if01"; "/dev/ttyACM0"])
  = Some "/dev/serial/by-id/usb-Pimoroni_Picade_Max-if00".
Proof.
  destruct (port_least_candidate
              (ports_of ["usb-Pimoroni_Picade_Max-if00"; "usb-Other-if02";
                         "usb-Pimoroni_Picade_Max-if02"; "usb-Pimoroni_Picade_Max-if01"]
                 ["/dev/serial/by-id/usb-Pimoroni_Picade_Max-if00";
                  "/dev/serial/by-id/usb-Pimoroni_Picade_Max-if01"; "/dev/ttyACM0"])
              "/dev/serial/by-id/usb-Pimoroni_Picade_Max-if01")
    as (p & Hp & _).
  - exact I.
  - exists ["usb-Pimoroni_Picade_Max-if00"; "usb-Other-if02";
            "usb-Pimoroni_Picade_Max-if02"; "usb-Pimoroni_Picade_Max-if01"],
      "usb-Pimoroni_Picade_Max-if01".
    split; [reflexivity|]. split; [simpl; tauto|]. split; vm_compute; reflexivity.
  - vm_compute. reflexivity.
  - vm_compute. reflexivity.
Defined.

(** X13. With no usable [PM_PORT], when a by-id candidate whose path holds
    [if02] opens, the port returned holds [if02] too: such an interface
    is taken before every other one. *)
Theorem port_prefers_if02 (P : ports) (q : string) :
  no_override P -> by_id_path P q -> serial_opens P q = true ->
  PyStr.contains "if02" q = true ->
  exists p,
    find_serial_port P = Some p /\ by_id_path P p /\ serial_opens P p = true
    /\ PyStr.contains "if02" p = true.
Proof.
  intros Hno Hq Hopen Hif.
  destruct (find_least_candidate P q Hno Hq Hopen) as (p & Hp & Hby & Hpo & Hleast).
  exists p. repeat (split; [assumption|]).
  specialize (Hleast q Hq Hopen). unfold key_leb, port_key in Hleast. simpl in Hleast.
  rewrite Hif in Hleast. simpl in Hleast.
  destruct (PyStr.contains "if02" p); [reflexivity | discriminate].
Qed.

Lemma port_prefers_if02_witness :
  exists p,
    find_serial_port
      (ports_of ["usb-Pimoroni_Picade_Max-if00"; "usb-Pimoroni_Picade_Max-if02"]
         ["/dev/serial/by-id/usb-Pimoroni_Picade_Max-if00";
          "/dev/serial/by-id/usb-Pimoroni_Picade_Max-if02"])
    = Some p
    /\ PyStr.contains "if02" p = true.
Proof.
  destruct (port_prefers_if02
              (ports_of ["usb-Pimoroni_Picade_Max-if00"; "usb-Pimoroni_Picade_Max-if02"]
                 ["/dev/serial/by-id/usb-Pimoroni_Picade_Max-if00";
                  "/dev/serial/by-id/usb-Pimoroni_Picade_Max-if02"])
              "/dev/serial/by-id/usb-Pimoroni_Picade_Max-if02")
    as (p & Hp & _ & _ & Hif).
  - exact I.
  - exists ["usb-Pimoroni_Picade_Max-if00"; "usb-Pimoroni_Picade_Max-if02"],
      "usb-Pimoroni_Picade_Max-if02".
    split; [reflexivity|]. split; [simpl; tauto|]. split; vm_compute; reflexivity.
  - vm_compute. reflexivity.
  - vm_compute. reflexivity.
  - exists p. split; assumption.
Defined.

(** X14. With no usable [PM_PORT], when no by-id candidate opens (or the
    directory cannot be listed), the port is [/dev/ttyACM0] if it exists
    and opens, else [/dev/ttyACM1] if it exists and opens, else none. *)
Theorem port_fallback (P : ports) :
  no_override P ->
  (forall q, by_id_path P q -> serial_opens P q = false) ->
  find_serial_port P
  = if path_exists P "/dev/ttyACM0" && serial_opens P "/dev/ttyACM0"
    then Some "/dev/ttyACM0"
    else if path_exists P "/dev/ttyACM1" && serial_opens P "/dev/ttyACM1"
         then Some "/dev/ttyACM1" else None.
Proof.
  intros Hno Hnone. rewrite (no_override_find P Hno).
  destruct (List.find (serial_opens P) (candidates P)) as [p|] eqn:Hfind.
  - apply find_some in Hfind as [Hin Hopen].
    apply candidates_in in Hin. rewrite (Hnone p Hin) in Hopen. discriminate.
  - reflexivity.
Qed.

Lemma port_fallback_witness :
  find_serial_port (ports_of ["usb-Pimoroni_Picade_Max-if00"; "unrelated"]
                      ["/dev/ttyACM1"; "/dev/serial/by-id/unrelated"])
  = Some "/dev/ttyACM1".
Proof.
  rewrite (port_fallback (ports_of ["usb-Pimoroni_Picade_Max-if00"; "unrelated"]
                            ["/dev/ttyACM1"; "/dev/serial/by-id/unrelated"]) I).
  - vm_compute. reflexivity.
  - intros q (names & name & [= <-] & Hin & Hc & ->).
    destruct Hin as [<-|[<-|[]]]; [vm_compute; reflexivity | discriminate].
Defined.

(** X15. A [PM_PORT] that is set, not empty and names an existing path is
    returned as it is, without being opened. Every other port returned has
    been opened with success, and is a by-id candidate or one of the two
    ACM paths, which exists. *)
Theorem port_sound (P : ports) :
  (forall env, pm_port P = Some env -> String.length env <> 0%nat ->
               path_exists P env = true -> find_serial_port P = Some env)
  /\ (forall p, find_serial_port P = Some p ->
        (pm_port P = Some p /\ path_exists P p = true)
        \/ (serial_opens P p = true
            /\ (by_id_path P p \/ (In p ACM_PATHS /\ path_exists P p = true)))).
Proof.
  split.
  - intros env Henv Hlen Hex. unfold find_serial_port. rewrite Henv, Hex.
    destruct env; [contradiction | reflexivity].
  - intros p. unfold find_serial_port.
    destruct (pm_port P) as [env|] eqn:Henv.
    + destruct (negb _ && path_exists P env) eqn:Hov.
      * intros [= <-]. left. apply andb_true_iff in Hov as [_ Hex]. auto.
      * intros H. right. revert H.
        destruct (List.find (serial_opens P) (candidates P)) as [c|] eqn:Hfind.
        -- intros [= <-]. apply find_some in Hfind as [Hin Hopen].
           split; [exact Hopen|]. left. apply candidates_in, Hin.
        -- intros Hacm. apply find_some in Hacm as [Hin Hboth].
           apply andb_true_iff in Hboth as [Hex Hopen]. auto.
    + intros H. right. revert H.
      destruct (List.find (serial_opens P) (candidates P)) as [c|] eqn:Hfind.
      * intros [= <-]. apply find_some in Hfind as [Hin Hopen].
        split; [exact Hopen|]. left. apply candidates_in, Hin.
      * intros Hacm. apply find_some in Hacm as [Hin Hboth].
        apply andb_true_iff in Hboth as [Hex Hopen]. auto.
Qed.

(** ** What the dispatcher writes *)

Lemma send_colors_encode (cols : frame) (s : daemon) :
  send_colors cols s = (Ok tt, add_written (encode cols) s).
Proof.
  destruct (pack_colors_Ok (mapped cols)) as (payload & Hp & _).
  unfold send_colors, encode, bind, liftR, modify. rewrite Hp. reflexivity.
Qed.

Lemma encode_values (cols : frame) :
  map byte_val (encode cols) = map byte_val HEADER ++ flat_map wire (mapped cols).
Proof.
  destruct (pack_colors_Ok (mapped cols)) as (payload & Hp & Hval).
  unfold encode. rewrite Hp, map_app, Hval. reflexivity.
Qed.

Lemma encode_is_frame (cols : frame) : is_frame (encode cols).
Proof.
  destruct (pack_colors_Ok (mapped cols)) as (payload & Hp & Hval).
  unfold encode, is_frame. rewrite Hp. split.
  - rewrite length_app. f_equal.
    rewrite <- (length_map byte_val), Hval, length_flat_map_wire.
    unfold mapped. rewrite length_map. reflexivity.
  - rewrite firstn_app, Nat.sub_diag, firstn_all, firstn_O. apply app_nil_r.
Qed.

(** The brightness byte of LED [i] is the clamped brightness of slot [i]. *)
Lemma nth_wire_brightness (cs : frame) (i : nat) :
  (i < List.length cs)%nat ->
  nth (4 * i + 3) (flat_map wire cs) 0 = _clamp (brightness (nth i cs (0, 0, 0, 0))).
Proof.
  revert i. induction cs as [|[[[b g] r] br] cs IH]; intros i Hi; simpl in Hi; [lia|].
  destruct i as [|i]; [reflexivity|].
  replace (4 * S i + 3)%nat with (S (S (S (S (4 * i + 3))))) by lia.
  simpl. apply IH. lia.
Qed.

Lemma brightness_at_encode (cols : frame) (i : nat) :
  (i < NUM_LEDS)%nat ->
  brightness_at (encode cols) i = _clamp (brightness (slot cols i)).
Proof.
  intros Hi. unfold brightness_at.
  rewrite <- (map_nth byte_val), encode_values.
  rewrite app_nth2 by (rewrite length_map; lia).
  rewrite length_map.
  replace (List.length HEADER + 4 * i + 3 - List.length HEADER)%nat
    with (4 * i + 3)%nat by lia.
  change (byte_val "000"%byte) with 0.
  rewrite nth_wire_brightness by (unfold mapped; rewrite length_map; exact Hi).
  f_equal. f_equal. unfold NUM_LEDS in Hi.
  do 7 (destruct i as [|i]; [reflexivity|]). lia.
Qed.

Lemma slot_capped (cols : frame) (i : nat) : Forall capped cols -> capped (slot cols i).
Proof.
  intros H. unfold slot. destruct (cols !! i) as [c|] eqn:Hc; simpl.
  - rewrite List.Forall_forall in H. apply H.
    apply list_elem_of_In. apply (list_elem_of_lookup_2 _ _ _ Hc).
  - apply capped_zero.
Qed.

Lemma encode_capped (cols : frame) : Forall capped cols -> capped_frame (encode cols).
Proof.
  intros H. split; [apply encode_is_frame|]. intros i Hi.
  rewrite (brightness_at_encode cols i Hi).
  pose proof (slot_capped cols i H) as Hc. unfold capped in Hc.
  rewrite _clamp_id by (unfold BRIGHT_LIMIT in Hc; lia). exact Hc.
Qed.

Section Writes.

(** [F] is a property of the frames sent, [P] the property of the bytes
    written that follows from it. *)
Variable F : list (Z * Z * Z * Z) -> Prop.
Variable P : list byte -> Prop.
Hypothesis HFP : forall cols, F cols -> P (encode cols).
Hypothesis Hcapped : forall cols, Forall capped cols -> F cols.

Lemma appends_bind {A B} (Q : A -> Prop) (R : B -> Prop) (m : M A) (k : A -> M B) :
  appends P Q m -> (forall a, Q a -> appends P R (k a)) -> appends P R (bind m k).
Proof using Type.
  intros Hm Hk s. destruct (Hm s) as (ws1 & Hw1 & Hp1 & Hq).
  unfold bind. destruct (m s) as [[a| |] s1]; simpl in *.
  - destruct (Hk a (Hq a eq_refl) s1) as (ws2 & Hw2 & Hp2 & Hr).
    exists (ws1 ++ ws2). rewrite Hw2, Hw1, app_assoc.
    split; [reflexivity|]. split; [apply Forall_app; auto | exact Hr].
  - exists ws1. split; [exact Hw1|]. split; [exact Hp1 | discriminate].
  - exists ws1. split; [exact Hw1|]. split; [exact Hp1 | discriminate].
Qed.

Lemma appends_weaken {A} (Q R : A -> Prop) (m : M A) :
  (forall a, Q a -> R a) -> appends P Q m -> appends P R m.
Proof using Type.
  intros HQR Hm s. destruct (Hm s) as (ws & Hw & Hp & Hq).
  exists ws. auto.
Qed.

Lemma appends_silent {A} (Q : A -> Prop) (m : M A) :
  (forall s, written (snd (m s)) = written s) ->
  (forall s a, fst (m s) = Ok a -> Q a) -> appends P Q m.
Proof using Type.
  intros Hw Hq s. exists []. rewrite Hw, app_nil_r.
  split; [reflexivity|]. split; [constructor | apply Hq].
Qed.

Lemma appends_ret {A} (Q : A -> Prop) (a : A) : Q a -> appends P Q (ret a).
Proof using Type.
  intros Ha. apply appends_silent; [reflexivity|]. intros s a' [= <-]. exact Ha.
Qed.

Lemma appends_liftR {A} (Q : A -> Prop) (r : result A) :
  (forall a, r = Ok a -> Q a) -> appends P Q (liftR r).
Proof using Type. intros Hr. apply appends_silent; [reflexivity|]. intros s. apply Hr. Qed.

Lemma appends_with_cfg {A} (Q : A -> Prop) (f : json -> result A) :
  (forall c a, f c = Ok a -> Q a) -> appends P Q (with_cfg f).
Proof using Type.
  intros Hf. apply appends_silent; [reflexivity|]. intros s. apply Hf.
Qed.

Lemma appends_modify (f : daemon -> daemon) :
  (forall s, written (f s) = written s) -> appends P any (modify f).
Proof using Type.
  intros Hf. apply appends_silent; [exact Hf|]. intros; exact I.
Qed.

Lemma appends_read_clock (E : env) : appends P any (read_clock E).
Proof using Type. apply appends_silent; [reflexivity|]. intros; exact I. Qed.

Lemma appends_load_config (E : env) : appends P any (load_config E).
Proof using Type.
  apply appends_silent; [|intros; exact I].
  intros s. unfold load_config.
  destruct (systems_json E) as [v|]; [destruct (keys v)|]; reflexivity.
Qed.

Lemma appends_send_colors (cols : frame) : F cols -> appends P any (send_colors cols).
Proof using HFP.
  intros Hc s. rewrite send_colors_encode. exists [encode cols].
  split; [reflexivity|]. split; [repeat constructor; apply HFP, Hc | intros; exact I].
Qed.

Lemma appends_send_each (g : generator) :
  Forall (fun r => forall cols, r = Ok cols -> F cols) g ->
  appends P any (send_each g).
Proof using HFP.
  induction 1 as [|r g Hr _ IH]; simpl.
  - apply appends_ret. exact I.
  - apply (appends_bind (fun cols => F cols)); [apply appends_liftR, Hr|].
    intros cols Hc. apply (appends_bind any); [apply appends_send_colors, Hc|].
    intros _ _. exact IH.
Qed.

Lemma appends_repeat_M (n : nat) (body : M unit) :
  appends P any body -> appends P any (repeat_M n body).
Proof using Type.
  intros Hb. induction n as [|n IH]; simpl.
  - apply appends_ret. exact I.
  - apply (appends_bind any); [exact Hb | intros _ _; exact IH].
Qed.

Lemma solid_capped (b g r br : Z) : Forall capped (solid b g r br).
Proof using Type.
  unfold solid. apply List.Forall_forall. intros c Hc.
  apply repeat_spec in Hc as ->. apply _clamp_capped.
Qed.

Lemma all_off_capped : Forall capped all_off.
Proof using Type.
  apply List.Forall_forall. intros c Hc. apply repeat_spec in Hc as ->.
  apply capped_zero.
Qed.

Lemma wipe_frames_capped (c : color) :
  capped c ->
  Forall (fun r => forall cols, r = Ok cols -> Forall capped cols) (wipe_frames c).
Proof using Type.
  intros Hc. unfold wipe_frames. apply List.Forall_forall. intros r Hr.
  apply in_map_iff in Hr as (i & <- & _). intros cols [= <-].
  generalize (seq 0 (i + 1)). generalize all_off_capped. generalize all_off.
  intros cols Hcols ks. revert cols Hcols.
  induction ks as [|k ks IH]; intros cols Hcols; simpl; [exact Hcols|].
  apply IH. apply Forall_insert; assumption.
Qed.

Lemma fade_all_capped (from_lvl to_lvl ms_total : Z) :
  Forall (fun r => forall cols, r = Ok cols -> Forall capped cols)
    (fade_all from_lvl to_lvl ms_total).
Proof using Type.
  unfold fade_all. destruct (rbind _ _) as [steps| |].
  - apply List.Forall_forall. intros r Hr. apply in_map_iff in Hr as (k & <- & _).
    intros cols H. res_inv H. injection H as <-. apply solid_capped.
  - repeat constructor. discriminate.
  - repeat constructor. discriminate.
Qed.

Lemma gen_capped_F (g : generator) :
  Forall (fun r => forall cols, r = Ok cols -> Forall capped cols) g ->
  Forall (fun r => forall cols, r = Ok cols -> F cols) g.
Proof using Hcapped.
  apply List.Forall_impl. intros r Hr cols Hc. apply Hcapped, (Hr cols Hc).
Qed.

Lemma appends_system_accent (sk : option string) :
  appends P capped_accent (with_cfg (fun c => system_accent c sk)).
Proof using Type.
  apply appends_with_cfg. intros c a Ha col ->. exact (system_accent_capped _ _ _ Ha).
Qed.

Lemma appends_set_idle (g : idle_gen) : appends P any (modify (set_current_idle g)).
Proof using Type. apply appends_modify. reflexivity. Qed.

Lemma appends_pulse_loop (fuel : nat) (E : env) (base : color) (t0 seconds : float) :
  (forall cols, F cols) -> appends P any (pulse_loop fuel E base t0 seconds).
Proof using HFP.
  intros Hall. induction fuel as [|fuel IH]; simpl.
  - apply appends_liftR. discriminate.
  - apply (appends_bind any); [apply appends_read_clock|]. intros now _.
    destruct (now - t0 <? seconds)%float; [|apply appends_ret; exact I].
    apply (appends_bind any); [apply appends_read_clock|]. intros t _.
    apply (appends_bind any); [apply appends_liftR; intros; exact I|]. intros cols _.
    apply (appends_bind any); [apply appends_send_colors, Hall|]. intros _ _.
    exact IH.
Qed.

Lemma appends_anim_menu_pulse (fuel : nat) (E : env) (accent : option color)
    (seconds : float) :
  (forall cols, F cols) -> appends P any (anim_menu_pulse fuel E accent seconds).
Proof using HFP.
  intros Hall. unfold anim_menu_pulse.
  apply (appends_bind any).
  - destruct accent; [apply appends_ret | apply appends_with_cfg; intros]; exact I.
  - intros base _. apply (appends_bind any); [apply appends_read_clock|].
    intros t0 _. apply appends_pulse_loop, Hall.
Qed.

Lemma appends_anim_game_start (sk rk : option string) :
  appends P any (anim_game_start sk rk).
Proof using HFP Hcapped.
  unfold anim_game_start.
  apply (appends_bind (fun l => forall cols, l = Some cols -> Forall capped cols)).
  - apply appends_with_cfg. intros c l Hl cols ->.
    apply lookup_start_layout_inv in Hl as (layout & Hl).
    apply (cols_from_layout_inv _ _ Hl).
  - intros layout Hlayout.
    assert (Hwipe : appends P any
              (bind (with_cfg (fun c => system_accent c sk))
                 (fun accent =>
                    bind (send_each (wipe_frames (default (0, 64, 0, BRIGHT_LIMIT) accent)))
                      (fun _ => send_colors (solid 0 0 0 18))))).
    { apply (appends_bind capped_accent); [apply appends_system_accent|].
      intros accent Hacc. apply (appends_bind any).
      - apply appends_send_each, gen_capped_F, wipe_frames_capped.
        destruct accent as [c|]; simpl; [apply Hacc; reflexivity|].
        unfold capped, BRIGHT_LIMIT. simpl. lia.
      - intros _ _. apply appends_send_colors, Hcapped, solid_capped. }
    destruct layout as [[|c cols]|]; try exact Hwipe.
    apply appends_send_colors, Hcapped, (Hlayout _ eq_refl).
Qed.

Lemma appends_anim_game_end : appends P any anim_game_end.
Proof using HFP Hcapped.
  unfold anim_game_end. apply (appends_bind any).
  - apply appends_send_each, gen_capped_F, wipe_frames_capped.
    unfold capped, BRIGHT_LIMIT. simpl. lia.
  - intros _ _. apply appends_send_each, gen_capped_F, fade_all_capped.
Qed.

Lemma appends_anim_shutdown : appends P any anim_shutdown.
Proof using HFP Hcapped.
  unfold anim_shutdown. apply (appends_bind any).
  - apply appends_repeat_M, (appends_bind any).
    + apply appends_send_colors, Hcapped, solid_capped.
    + intros _ _. apply appends_send_colors, Hcapped, solid_capped.
  - intros _ _. apply appends_send_each, gen_capped_F, fade_all_capped.
Qed.

Lemma appends_anim_reboot : appends P any anim_reboot.
Proof using HFP Hcapped.
  unfold anim_reboot. apply (appends_bind any).
  - apply appends_send_each, gen_capped_F, wipe_frames_capped.
    unfold capped, BRIGHT_LIMIT. simpl. lia.
  - intros _ _. apply (appends_bind any).
    + apply appends_send_each, gen_capped_F, wipe_frames_capped.
      unfold capped, BRIGHT_LIMIT. simpl. lia.
    + intros _ _. apply appends_send_each, gen_capped_F, fade_all_capped.
Qed.

Lemma appends_anim_settings_changed : appends P any anim_settings_changed.
Proof using HFP Hcapped.
  unfold anim_settings_changed. apply appends_repeat_M, (appends_bind any).
  - apply appends_send_colors, Hcapped, solid_capped.
  - intros _ _. apply appends_send_colors, Hcapped, all_off_capped.
Qed.

Lemma appends_idle_after (sk : option string) :
  appends P any
    (bind (with_cfg (fun c => system_accent c sk))
       (fun accent => modify (set_current_idle (idle_menu accent)))).
Proof using Type.
  apply (appends_bind any); [apply appends_with_cfg; intros; exact I|].
  intros accent _. apply appends_set_idle.
Qed.

Lemma appends_handle (fuel : nat) (E : env) (name : string) (evt : json) :
  String.eqb name "menu" = false \/ (forall cols, F cols) ->
  appends P any (handle fuel E name evt).
Proof using HFP Hcapped.
  intros Hmenu. unfold handle.
  destruct (String.eqb name "reload-config"); [apply appends_load_config|].
  apply (appends_bind any); [apply appends_liftR; intros; exact I|]. intros syskey _.
  apply (appends_bind any); [apply appends_liftR; intros; exact I|]. intros romkey _.
  destruct (String.eqb name "menu") eqn:Hm.
  { destruct Hmenu as [Hmenu|Hall]; [discriminate|].
    apply (appends_bind any); [apply appends_with_cfg; intros; exact I|].
    intros accent _. apply (appends_bind any).
    - apply appends_anim_menu_pulse, Hall.
    - intros _ _. apply appends_set_idle. }
  destruct (String.eqb name "game-start").
  { apply (appends_bind any); [apply appends_anim_game_start|].
    intros _ _. apply appends_idle_after. }
  destruct (String.eqb name "game-end").
  { apply (appends_bind any); [apply appends_anim_game_end|].
    intros _ _. apply appends_idle_after. }
  destruct (String.eqb name "shutdown"); [apply appends_anim_shutdown|].
  destruct (String.eqb name "reboot"); [apply appends_anim_reboot|].
  destruct (String.eqb name "settings-changed" || String.eqb name "controls-changed");
    [apply appends_anim_settings_changed|].
  destruct (String.eqb name "attract-on").
  { apply (appends_bind any); [apply appends_with_cfg; intros; exact I|].
    intros mode _. apply appends_modify. reflexivity. }
  destruct (String.eqb name "attract-off"); [apply appends_idle_after|].
  destruct (String.eqb name "solid").
  { do 4 (apply (appends_bind any); [apply appends_liftR; intros; exact I|]; intros ? _).
    apply appends_send_colors, Hcapped, solid_capped. }
  destruct (String.eqb name "off");
    [apply appends_send_colors, Hcapped, all_off_capped | apply appends_ret; exact I].
Qed.

Lemma appends_dispatch (fuel : nat) (E : env) (evt : json) :
  (forall name, event_name evt = Ok name -> String.eqb name "menu" = false)
  \/ (forall cols, F cols) ->
  appends P any (dispatch fuel E evt).
Proof using HFP Hcapped.
  intros Hmenu. unfold dispatch.
  apply (appends_bind (fun name => event_name evt = Ok name));
    [apply appends_liftR; auto|].
  intros name Hname. apply (appends_bind any).
  - apply appends_handle. destruct Hmenu as [H|H]; [left; apply H, Hname | right; exact H].
  - intros _ _. apply appends_modify. reflexivity.
Qed.

End Writes.

(** X16. Whatever the event is, and whether the handler returns, raises or
    is cut short, everything the dispatcher writes to the serial port is a
    sequence of whole frames: each write is the header followed by
    [4 * NUM_LEDS] bytes, and nothing written before is changed. *)
Theorem dispatch_writes_frames (fuel : nat) (E : env) (evt : json) (s : daemon) :
  exists ws,
    written (snd (dispatch fuel E evt s)) = written s ++ ws /\ Forall is_frame ws.
Proof.
  destruct (appends_dispatch (fun _ => True) is_frame
              (fun cols _ => encode_is_frame cols) (fun _ _ => I) fuel E evt
              (or_intror (fun _ => I)) s) as (ws & Hw & Hp & _).
  exists ws. auto.
Qed.

(** X17. For every event but [menu], in every frame the dispatcher writes
    the brightness byte of every LED is at most [BRIGHT_LIMIT]: the cap
    holds for layouts, accents, wipes, fades, flashes and [solid] alike,
    whatever the configuration and the event hold. *)
Theorem dispatch_brightness_capped (fuel : nat) (E : env) (evt : json) (s : daemon) :
  event_name evt <> Ok "menu" ->
  exists ws,
    written (snd (dispatch fuel E evt s)) = written s ++ ws
    /\ Forall capped_frame ws.
Proof.
  intros Hname.
  destruct (appends_dispatch (Forall capped) capped_frame encode_capped
              (fun _ H => H) fuel E evt) with (s := s) as (ws & Hw & Hp & _).
  - left. intros name Hn. destruct (String.eqb_spec name "menu") as [->|]; congruence.
  - exists ws. auto.
Qed.

Lemma dispatch_brightness_capped_witness :
  exists ws,
    written (snd (dispatch 0 env_bare
                    (dict [("event", JStr "solid"); ("br", JInt 255)]) st_fresh))
    = written st_fresh ++ ws
    /\ Forall capped_frame ws.
Proof.
  apply (dispatch_brightness_capped 0 env_bare
           (dict [("event", JStr "solid"); ("br", JInt 255)]) st_fresh).
  vm_compute. discriminate.
Defined.

(** ** The frames of each animation *)

Lemma written_add_frames (ws : list (list byte)) (s : daemon) :
  written (add_frames ws s) = written s ++ ws
  /\ current_idle (add_frames ws s) = current_idle s
  /\ _cfg (add_frames ws s) = _cfg s.
Proof.
  unfold add_frames. revert s. induction ws as [|w ws IH]; intros s; simpl.
  - rewrite app_nil_r. auto.
  - destruct (IH (add_written w s)) as (Hw & Hi & Hc).
    rewrite Hw, Hi, Hc. simpl. rewrite <- app_assoc. auto.
Qed.

Lemma cfg_add_written (bs : list byte) (s : daemon) :
  _cfg (add_written bs s) = _cfg s.
Proof. reflexivity. Qed.

Lemma add_frames_app (ws1 ws2 : list (list byte)) (s : daemon) :
  add_frames (ws1 ++ ws2) s = add_frames ws2 (add_frames ws1 s).
Proof. unfold add_frames. apply fold_left_app. Qed.

(** Sending a generator none of whose steps raises writes its frames. *)
Lemma send_each_oks (g : generator) (frames : list frame) (s : daemon) :
  oks g = Some frames ->
  send_each g s = (Ok tt, add_frames (map encode frames) s).
Proof.
  revert frames s. induction g as [|[cols| |] g IH]; intros frames s; simpl;
    try discriminate.
  - intros [= <-]. reflexivity.
  - destruct (oks g) as [frames'|] eqn:Hg; simpl; [|discriminate].
    intros [= <-]. unfold bind, liftR. rewrite send_colors_encode.
    rewrite (IH frames' _ eq_refl). reflexivity.
Qed.

Lemma wipe_frames_oks (c : color) :
  oks (wipe_frames c) = Some (map (wipe_frame c) (seq 0 NUM_LEDS)).
Proof. reflexivity. Qed.

Section Animations.

Variables (fuel : nat) (E : env).

(** X18. A [game-start] event for which no start layout resolves, while
    the accent of the system resolves, writes [NUM_LEDS + 1] frames: the
    wipe in the accent colour, or in (0, 64, 0, BRIGHT_LIMIT) when the
    system has no accent, then all LEDs at (0, 0, 0, 18); the idle
    generator becomes [idle_menu] of the accent. *)
Theorem game_start_without_layout (evt : json) (s : daemon)
    (syskey romkey : string) (accent : option color) :
  event_name evt = Ok "game-start" ->
  get_system_key E evt = Ok syskey ->
  get_rom_key E evt = Ok romkey ->
  lookup_start_layout (_cfg s) (Some syskey) (Some romkey) = Ok None ->
  system_accent (_cfg s) (Some syskey) = Ok accent ->
  dispatch fuel E evt s
  = (Ok tt,
     set_last_idle 0
       (set_current_idle (idle_menu accent)
          (add_frames
             (map encode
                (map (wipe_frame (default (0, 64, 0, BRIGHT_LIMIT) accent))
                   (seq 0 NUM_LEDS)
                 ++ [solid 0 0 0 18])) s))).
Proof using Type.
  intros Hname Hsk Hrk Hlook Hacc.
  unfold dispatch, bind, liftR. rewrite Hname.
  unfold handle, bind, liftR. name_tests. rewrite Hsk, Hrk. cbv beta iota.
  unfold anim_game_start, bind, with_cfg. rewrite Hlook, Hacc. cbv beta iota.
  rewrite (send_each_oks _ _ s (wipe_frames_oks _)), send_colors_encode.
  cbv beta iota.
  destruct (written_add_frames
              (map encode (map (wipe_frame (default (0, 64, 0, BRIGHT_LIMIT) accent))
                             (seq 0 NUM_LEDS))) s) as (_ & _ & Hcfg).
  rewrite cfg_add_written, Hcfg, Hacc.
  rewrite map_app, add_frames_app. reflexivity.
Qed.

(** The frames of the three animations that take no argument. *)
Lemma fade_shutdown :
  exists frames,
    oks (fade_all 24 0 900) = Some frames
    /\ List.length frames = 46%nat /\ List.last frames [] = all_off.
Proof using Type.
  eexists. split; [vm_compute; reflexivity|]. split; vm_compute; reflexivity.
Qed.

Lemma fade_reboot :
  exists frames,
    oks (fade_all 28 0 500) = Some frames
    /\ List.length frames = 26%nat /\ List.last frames [] = all_off.
Proof using Type.
  eexists. split; [vm_compute; reflexivity|]. split; vm_compute; reflexivity.
Qed.

Lemma fade_game_end :
  exists frames,
    oks (fade_all 28 10 600) = Some frames
    /\ List.length frames = 31%nat
    /\ List.last frames [] = repeat (0, 0, 0, 10) NUM_LEDS
    /\ List.hd [] frames = repeat (0, 0, 0, 28) NUM_LEDS.
Proof using Type.
  eexists. split; [vm_compute; reflexivity|]. repeat split; vm_compute; reflexivity.
Qed.

Lemma last_app_cons {A} (l1 l2 : list A) (d : A) :
  l2 <> [] -> List.last (l1 ++ l2) d = List.last l2 d.
Proof using Type.
  intros H. induction l1 as [|x l1 IH]; [reflexivity|].
  simpl. destruct (l1 ++ l2) eqn:Happ; [|exact IH].
  apply app_eq_nil in Happ as [_ ->]. contradiction.
Qed.

(** X19. A [shutdown] event writes 52 frames and a [reboot] event 40, and
    both end with all LEDs off: the last frame written is the all-zero
    frame. Neither raises, and the idle generator stays as it was. *)
Theorem shutdown_reboot_end_dark (evt : json) (s : daemon) (name : string) :
  event_record evt = true ->
  event_name evt = Ok name ->
  name = "shutdown" \/ name = "reboot" ->
  exists frames,
    dispatch fuel E evt s = (Ok tt, set_last_idle 0 (add_frames (map encode frames) s))
    /\ List.length frames = (if String.eqb name "shutdown" then 52 else 40)%nat
    /\ List.last frames [] = all_off
    /\ current_idle (snd (dispatch fuel E evt s)) = current_idle s.
Proof using Type.
  intros Hrec Hname Hcases.
  destruct (event_record_keys E evt Hrec) as (sk & rk & Hsk & Hrk).
  assert (Hidle : forall frames,
            dispatch fuel E evt s
            = (Ok tt, set_last_idle 0 (add_frames (map encode frames) s)) ->
            current_idle (snd (dispatch fuel E evt s)) = current_idle s).
  { intros frames ->. simpl. apply written_add_frames. }
  destruct Hcases as [-> | ->].
  - destruct fade_shutdown as (fade & Hfade & Hlen & Hlast).
    set (flash := [solid 0 0 0 BRIGHT_LIMIT; solid 0 0 0 8]).
    exists ((flash ++ flash ++ flash) ++ fade).
    assert (Hd : dispatch fuel E evt s
                 = (Ok tt, set_last_idle 0
                             (add_frames (map encode ((flash ++ flash ++ flash) ++ fade)) s))).
    { unfold dispatch, bind, liftR. rewrite Hname.
      unfold handle, bind, liftR. name_tests. rewrite Hsk, Hrk. cbv beta iota.
      unfold anim_shutdown, bind. simpl repeat_M. unfold bind, ret.
      rewrite !send_colors_encode. cbv beta iota.
      rewrite (send_each_oks _ _ _ Hfade).
      rewrite map_app, add_frames_app. reflexivity. }
    split; [exact Hd|]. split; [rewrite length_app, Hlen; reflexivity|].
    split; [|exact (Hidle _ Hd)].
    rewrite last_app_cons; [exact Hlast|]. intros Hnil.
    rewrite Hnil in Hlen. discriminate Hlen.
  - destruct fade_reboot as (fade & Hfade & Hlen & Hlast).
    set (green := map (wipe_frame (0, 64, 0, BRIGHT_LIMIT)) (seq 0 NUM_LEDS)).
    set (red := map (wipe_frame (64, 0, 0, BRIGHT_LIMIT)) (seq 0 NUM_LEDS)).
    exists ((green ++ red) ++ fade).
    assert (Hd : dispatch fuel E evt s
                 = (Ok tt, set_last_idle 0
                             (add_frames (map encode ((green ++ red) ++ fade)) s))).
    { unfold dispatch, bind, liftR. rewrite Hname.
      unfold handle, bind, liftR. name_tests. rewrite Hsk, Hrk. cbv beta iota.
      unfold anim_reboot, bind.
      rewrite (send_each_oks _ _ _ (wipe_frames_oks _)).
      rewrite (send_each_oks _ _ _ (wipe_frames_oks _)).
      rewrite (send_each_oks _ _ _ Hfade).
      rewrite !map_app, !add_frames_app. reflexivity. }
    split; [exact Hd|]. split; [rewrite !length_app, Hlen; reflexivity|].
    split; [|exact (Hidle _ Hd)].
    rewrite last_app_cons; [exact Hlast|]. intros Hnil.
    rewrite Hnil in Hlen. discriminate Hlen.
Qed.

(** X20. A [settings-changed] or [controls-changed] event writes six
    frames: three times all LEDs at (32, 32, 0, BRIGHT_LIMIT) then all LEDs
    off; it ends with the LEDs off and leaves the idle generator as it was. *)
Theorem settings_changed_flashes (evt : json) (s : daemon) (name : string) :
  event_record evt = true ->
  event_name evt = Ok name ->
  name = "settings-changed" \/ name = "controls-changed" ->
  dispatch fuel E evt s
  = (Ok tt,
     set_last_idle 0
       (add_frames
          (map encode
             (concat (repeat [repeat (32, 32, 0, BRIGHT_LIMIT) NUM_LEDS; all_off] 3)))
          s)).
Proof using Type.
  intros Hrec Hname Hcases.
  destruct (event_record_keys E evt Hrec) as (sk & rk & Hsk & Hrk).
  unfold dispatch, bind, liftR. rewrite Hname.
  unfold handle, bind, liftR.
  destruct Hcases as [-> | ->]; name_tests; rewrite Hsk, Hrk; cbv beta iota;
    unfold anim_settings_changed; simpl repeat_M; unfold bind, ret;
    rewrite !send_colors_encode; reflexivity.
Qed.

(** X21. A [game-end] event, when the accent of the system resolves,
    writes 38 frames: the [NUM_LEDS] frames of a wipe in
    (64, 0, 0, BRIGHT_LIMIT), then a fade of 31 frames from all LEDs at
    (0, 0, 0, 28) down to all LEDs at (0, 0, 0, 10), the last frame; the
    idle generator becomes [idle_menu] of the accent. *)
Theorem game_end_frames (evt : json) (s : daemon) (syskey : string)
    (accent : option color) :
  event_record evt = true ->
  event_name evt = Ok "game-end" ->
  get_system_key E evt = Ok syskey ->
  system_accent (_cfg s) (Some syskey) = Ok accent ->
  exists fade,
    dispatch fuel E evt s
    = (Ok tt,
       set_last_idle 0
         (set_current_idle (idle_menu accent)
            (add_frames
               (map encode
                  (map (wipe_frame (64, 0, 0, BRIGHT_LIMIT)) (seq 0 NUM_LEDS) ++ fade))
               s)))
    /\ List.length fade = 31%nat
    /\ List.hd [] fade = repeat (0, 0, 0, 28) NUM_LEDS
    /\ List.last fade [] = repeat (0, 0, 0, 10) NUM_LEDS.
Proof using Type.
  intros Hrec Hname Hsk Hacc.
  destruct (event_record_keys E evt Hrec) as (sk & rk & Hsk' & Hrk).
  destruct fade_game_end as (fade & Hfade & Hlen & Hlast & Hhd).
  exists fade. split; [|auto].
  unfold dispatch, bind, liftR. rewrite Hname.
  unfold handle, bind, liftR. name_tests. rewrite Hsk, Hrk. cbv beta iota.
  unfold anim_game_end, bind.
  rewrite (send_each_oks _ _ _ (wipe_frames_oks _)).
  rewrite (send_each_oks _ _ _ Hfade).
  unfold with_cfg.
  rewrite <- add_frames_app, <- map_app.
  destruct (written_add_frames
              (map encode (map (wipe_frame (64, 0, 0, BRIGHT_LIMIT)) (seq 0 NUM_LEDS)
                           ++ fade)) s) as (_ & _ & Hcfg).
  rewrite Hcfg, Hacc. reflexivity.
Qed.

End Animations.

Lemma game_start_without_layout_witness :
  dispatch 0 env_bare (dict [("event", JStr "game-start"); ("system", JStr "nes")])
    st_fresh
  = (Ok tt,
     set_last_idle 0
       (set_current_idle (idle_menu None)
          (add_frames
             (map encode
                (map (wipe_frame (default (0, 64, 0, BRIGHT_LIMIT) None))
                   (seq 0 NUM_LEDS)
                 ++ [solid 0 0 0 18])) st_fresh))).
Proof.
  apply (game_start_without_layout 0 env_bare
           (dict [("event", JStr "game-start"); ("system", JStr "nes")])
           st_fresh "nes" "" None); vm_compute; reflexivity.
Defined.

Lemma shutdown_reboot_end_dark_witness :
  exists frames,
    dispatch 0 env_bare (dict [("event", JStr "reboot")]) st_fresh
    = (Ok tt, set_last_idle 0 (add_frames (map encode frames) st_fresh))
    /\ List.length frames = (if String.eqb "reboot" "shutdown" then 52 else 40)%nat
    /\ List.last frames [] = all_off
    /\ current_idle (snd (dispatch 0 env_bare (dict [("event", JStr "reboot")]) st_fresh))
       = current_idle st_fresh.
Proof.
  apply (shutdown_reboot_end_dark 0 env_bare (dict [("event", JStr "reboot")])
           st_fresh "reboot").
  - vm_compute. reflexivity.
  - vm_compute. reflexivity.
  - right. reflexivity.
Defined.

Lemma settings_changed_flashes_witness :
  dispatch 0 env_bare (dict [("event", JStr "controls-changed")]) st_later
  = (Ok tt,
     set_last_idle 0
       (add_frames
          (map encode
             (concat (repeat [repeat (32, 32, 0, BRIGHT_LIMIT) NUM_LEDS; all_off] 3)))
          st_later)).
Proof.
  apply (settings_changed_flashes 0 env_bare
           (dict [("event", JStr "controls-changed")]) st_later "controls-changed").
  - vm_compute. reflexivity.
  - vm_compute. reflexivity.
  - right. reflexivity.
Defined.

Lemma game_end_frames_witness :
  exists fade,
    dispatch 0 env_bare (dict [("event", JStr "game-end"); ("system", JStr "snes")])
      st_fresh
    = (Ok tt,
       set_last_idle 0
         (set_current_idle (idle_menu (Some (9, 0, 0, 170)))
            (add_frames
               (map encode
                  (map (wipe_frame (64, 0, 0, BRIGHT_LIMIT)) (seq 0 NUM_LEDS) ++ fade))
               st_fresh)))
    /\ List.length fade = 31%nat
    /\ List.hd [] fade = repeat (0, 0, 0, 28) NUM_LEDS
    /\ List.last fade [] = repeat (0, 0, 0, 10) NUM_LEDS.
Proof.
  apply (game_end_frames 0 env_bare
           (dict [("event", JStr "game-end"); ("system", JStr "snes")])
           st_fresh "snes" (Some (9, 0, 0, 170))); vm_compute; reflexivity.
Defined.

(** ** The idle generator after an event *)

Lemma keeps_bind {A B} (m : M A) (k : A -> M B) :
  keeps m -> (forall a, keeps (k a)) -> keeps (bind m k).
Proof.
  intros Hm Hk s. destruct (Hm s) as [Hi Hc]. unfold bind.
  destruct (m s) as [[a| |] s1]; simpl in *; auto.
  destruct (Hk a s1) as [Hi' Hc']. rewrite Hi', Hc'. auto.
Qed.

Lemma keeps_same {A} (m : M A) : (forall s, snd (m s) = s) -> keeps m.
Proof. intros H s. rewrite H. auto. Qed.

Lemma keeps_send_colors (cols : frame) : keeps (send_colors cols).
Proof. intros s. rewrite send_colors_encode. auto. Qed.

Lemma keeps_send_each (g : generator) : keeps (send_each g).
Proof.
  induction g as [|r g IH]; simpl; [apply keeps_same; reflexivity|].
  apply keeps_bind; [apply keeps_same; reflexivity|]. intros cols.
  apply keeps_bind; [apply keeps_send_colors | intros _; exact IH].
Qed.

Lemma keeps_repeat_M (n : nat) (body : M unit) : keeps body -> keeps (repeat_M n body).
Proof.
  intros Hb. induction n as [|n IH]; simpl; [apply keeps_same; reflexivity|].
  apply keeps_bind; [exact Hb | intros _; exact IH].
Qed.

Lemma keeps_read_clock (E : env) : keeps (read_clock E).
Proof. intros s. auto. Qed.

Lemma keeps_pulse_loop (fuel : nat) (E : env) (base : color) (t0 seconds : float) :
  keeps (pulse_loop fuel E base t0 seconds).
Proof.
  induction fuel as [|fuel IH]; simpl; [apply keeps_same; reflexivity|].
  apply keeps_bind; [apply keeps_read_clock|]. intros now.
  destruct (now - t0 <? seconds)%float; [|apply keeps_same; reflexivity].
  apply keeps_bind; [apply keeps_read_clock|]. intros t.
  apply keeps_bind; [apply keeps_same; reflexivity|]. intros cols.
  apply keeps_bind; [apply keeps_send_colors | intros _; exact IH].
Qed.

Lemma keeps_anim_menu_pulse (fuel : nat) (E : env) (accent : option color)
    (seconds : float) :
  keeps (anim_menu_pulse fuel E accent seconds).
Proof.
  unfold anim_menu_pulse. apply keeps_bind.
  - destruct accent; apply keeps_same; reflexivity.
  - intros base. apply keeps_bind; [apply keeps_read_clock|].
    intros t0. apply keeps_pulse_loop.
Qed.

Lemma keeps_anim_game_start (sk rk : option string) : keeps (anim_game_start sk rk).
Proof.
  unfold anim_game_start. apply keeps_bind; [apply keeps_same; reflexivity|].
  intros layout.
  assert (Hwipe : keeps
            (bind (with_cfg (fun c => system_accent c sk))
               (fun accent =>
                  bind (send_each (wipe_frames (default (0, 64, 0, BRIGHT_LIMIT) accent)))
                    (fun _ => send_colors (solid 0 0 0 18))))).
  { apply keeps_bind; [apply keeps_same; reflexivity|]. intros accent.
    apply keeps_bind; [apply keeps_send_each | intros _; apply keeps_send_colors]. }
  destruct layout as [[|c cols]|]; try exact Hwipe. apply keeps_send_colors.
Qed.

Lemma keeps_anim_game_end : keeps anim_game_end.
Proof.
  unfold anim_game_end.
  apply keeps_bind; [apply keeps_send_each | intros _; apply keeps_send_each].
Qed.

Lemma keeps_anim_shutdown : keeps anim_shutdown.
Proof.
  unfold anim_shutdown. apply keeps_bind; [|intros _; apply keeps_send_each].
  apply keeps_repeat_M, keeps_bind;
    [apply keeps_send_colors | intros _; apply keeps_send_colors].
Qed.

Lemma keeps_anim_reboot : keeps anim_reboot.
Proof.
  unfold anim_reboot. apply keeps_bind; [apply keeps_send_each|]. intros _.
  apply keeps_bind; [apply keeps_send_each | intros _; apply keeps_send_each].
Qed.

Lemma keeps_anim_settings_changed : keeps anim_settings_changed.
Proof.
  unfold anim_settings_changed. apply keeps_repeat_M, keeps_bind;
    [apply keeps_send_colors | intros _; apply keeps_send_colors].
Qed.

Lemma outcome_keeps (m : M unit) (s : daemon) :
  keeps m -> idle_outcome m s (current_idle s).
Proof. intros H. destruct (H s) as [Hi _]. split; intros _; exact Hi. Qed.

Lemma outcome_liftR {X} (r : result X) (k : X -> M unit) (s : daemon) (g : idle_gen) :
  (forall x, r = Ok x -> idle_outcome (k x) s g) ->
  idle_outcome (bind (liftR r) k) s g.
Proof.
  intros H. unfold bind, liftR. destruct r as [x| |].
  - exact (H x eq_refl).
  - split; [discriminate | reflexivity].
  - split; [discriminate | reflexivity].
Qed.

(** An animation, then the assignment of a generator made from the
    configuration. *)
Lemma outcome_assign {X} (anim : M unit) (f : json -> result X) (g : X -> idle_gen)
    (s : daemon) :
  keeps anim ->
  idle_outcome
    (bind anim (fun _ => bind (with_cfg f) (fun a => modify (set_current_idle (g a)))))
    s
    (match f (_cfg s) with
     | Ok a => g a
     | _ => current_idle s
     end).
Proof.
  intros Hk. destruct (Hk s) as [Hi Hc]. unfold idle_outcome, bind, with_cfg, modify.
  destruct (anim s) as [[[]| |] s1]; simpl in *.
  - rewrite Hc. destruct (f (_cfg s)) as [a| |]; simpl.
    + split; [reflexivity | intros H; contradiction].
    + split; [discriminate | intros _; exact Hi].
    + split; [discriminate | intros _; exact Hi].
  - split; [discriminate | intros _; exact Hi].
  - split; [discriminate | intros _; exact Hi].
Qed.

(** The same with the configuration read before the animation. *)
Lemma outcome_assign_before {X} (f : json -> result X) (anim : X -> M unit)
    (g : X -> idle_gen) (s : daemon) :
  (forall a, keeps (anim a)) ->
  idle_outcome
    (bind (with_cfg f)
       (fun a => bind (anim a) (fun _ => modify (set_current_idle (g a)))))
    s
    (match f (_cfg s) with
     | Ok a => g a
     | _ => current_idle s
     end).
Proof.
  intros Hk. unfold idle_outcome, bind, with_cfg, modify.
  destruct (f (_cfg s)) as [a| |]; simpl;
    try (split; [discriminate | reflexivity]).
  destruct (Hk a s) as [Hi _].
  destruct (anim a s) as [[[]| |] s1]; simpl in *.
  - split; [reflexivity | intros H; contradiction].
  - split; [discriminate | intros _; exact Hi].
  - split; [discriminate | intros _; exact Hi].
Qed.

Lemma keeps_ret_tt : keeps (ret tt).
Proof. apply keeps_same. reflexivity. Qed.

Section IdleAfter.

Variables (fuel : nat) (E : env).

Lemma outcome_handle (name : string) (evt : json) (s : daemon) :
  idle_outcome (handle fuel E name evt) s (idle_after E evt name s).
Proof using Type.
  unfold handle.
  destruct (String.eqb_spec name "reload-config") as [->|_].
  { change (idle_after E evt "reload-config" s) with (current_idle s).
    unfold idle_outcome, load_config.
    destruct (systems_json E) as [v|]; [destruct (keys v)|]; simpl; auto. }
  unfold idle_after.
  destruct (get_system_key E evt) as [sk| |] eqn:Hsk;
    try (apply outcome_liftR; discriminate).
  apply outcome_liftR. intros sk' [= <-].
  destruct (get_rom_key E evt) as [rk| |] eqn:Hrk;
    try (apply outcome_liftR; discriminate).
  apply outcome_liftR. intros rk' [= <-]. simpl rbind.
  destruct (String.eqb_spec name "menu") as [->|Hmenu].
  { exact (outcome_assign_before (fun c => system_accent c (Some sk))
             (fun accent => anim_menu_pulse fuel E accent 2) idle_menu s
             (fun accent => keeps_anim_menu_pulse fuel E accent 2)). }
  destruct (String.eqb_spec name "game-start") as [->|Hgs].
  { exact (outcome_assign (anim_game_start (Some sk) (Some rk))
             (fun c => system_accent c (Some sk)) idle_menu s
             (keeps_anim_game_start _ _)). }
  destruct (String.eqb_spec name "game-end") as [->|Hge].
  { exact (outcome_assign anim_game_end
             (fun c => system_accent c (Some sk)) idle_menu s keeps_anim_game_end). }
  destruct (String.eqb_spec name "shutdown") as [->|_].
  { apply outcome_keeps, keeps_anim_shutdown. }
  destruct (String.eqb_spec name "reboot") as [->|_].
  { apply outcome_keeps, keeps_anim_reboot. }
  destruct (String.eqb_spec name "settings-changed") as [->|_].
  { apply outcome_keeps, keeps_anim_settings_changed. }
  destruct (String.eqb_spec name "controls-changed") as [->|_].
  { apply outcome_keeps, keeps_anim_settings_changed. }
  destruct (String.eqb_spec name "attract-on") as [->|_].
  { exact (outcome_assign (ret tt) default_attract_mode idle_attract s keeps_ret_tt). }
  destruct (String.eqb_spec name "attract-off") as [->|Hoff].
  { exact (outcome_assign (ret tt) (fun c => system_accent c (Some sk)) idle_menu s
             keeps_ret_tt). }
  assert (Hkeep : keeps
            (if String.eqb name "solid"
             then
               bind (liftR (int_field evt "b" 0))
                 (fun b =>
                    bind (liftR (int_field evt "g" 0))
                      (fun g =>
                         bind (liftR (int_field evt "r" 0))
                           (fun r =>
                              bind (liftR (int_field evt "br" 24))
                                (fun br => send_colors (solid b g r br)))))
             else if String.eqb name "off" then send_colors all_off else ret tt)).
  { destruct (String.eqb name "solid").
    - do 4 (apply keeps_bind; [apply keeps_same; reflexivity | intros ?]).
      apply keeps_send_colors.
    - destruct (String.eqb name "off"); [apply keeps_send_colors | apply keeps_ret_tt]. }
  replace (if sets_menu_idle name then _ else _) with (current_idle s).
  - exact (outcome_keeps _ s Hkeep).
  - unfold sets_menu_idle, existsb.
    apply String.eqb_neq in Hmenu, Hgs, Hge, Hoff.
    rewrite Hmenu, Hgs, Hge, Hoff. cbv beta iota delta [orb].
    reflexivity.
Qed.

End IdleAfter.

(** X22. The idle generator after an event. When the dispatcher handles an
    event to the end, the idle generator is [idle_menu] of the accent of
    the event's system after [menu], [game-start], [game-end] and
    [attract-off], [idle_attract] of the configured mode after
    [attract-on], and the one it was after every other event, the unknown
    ones included; the time of the last idle frame is reset to 0. When the
    handling raises, the idle generator is the one it was. *)
Theorem idle_after_event (fuel : nat) (E : env) (evt : json) (name : string)
    (s : daemon) :
  event_name evt = Ok name ->
  (fst (dispatch fuel E evt s) = Ok tt ->
   current_idle (snd (dispatch fuel E evt s)) = idle_after E evt name s
   /\ last_idle (snd (dispatch fuel E evt s)) = 0%float)
  /\ (fst (dispatch fuel E evt s) <> Ok tt ->
      current_idle (snd (dispatch fuel E evt s)) = current_idle s).
Proof.
  intros Hname. destruct (outcome_handle fuel E name evt s) as [Hok Hraise].
  unfold dispatch, bind, liftR, modify. rewrite Hname. cbv beta iota.
  destruct (handle fuel E name evt s) as [[[]| |] s1]; simpl in *.
  - split; [intros _ | intros H; contradiction].
    split; [apply Hok; reflexivity | reflexivity].
  - split; [discriminate | intros _; apply Hraise; discriminate].
  - split; [discriminate | intros _; apply Hraise; discriminate].
Qed.

Lemma idle_after_event_witness :
  (fst (dispatch 0 env_bare (dict [("event", JStr "attract-on")]) st_later) = Ok tt ->
   current_idle (snd (dispatch 0 env_bare (dict [("event", JStr "attract-on")]) st_later))
   = idle_attract "breath"
   /\ last_idle (snd (dispatch 0 env_bare (dict [("event", JStr "attract-on")]) st_later))
      = 0%float)
  /\ (fst (dispatch 0 env_bare (dict [("event", JStr "attract-on")]) st_later) <> Ok tt ->
      current_idle (snd (dispatch 0 env_bare (dict [("event", JStr "attract-on")]) st_later))
      = current_idle st_later).
Proof.
  apply (idle_after_event 0 env_bare (dict [("event", JStr "attract-on")])
           "attract-on" st_later).
  vm_compute. reflexivity.
Defined.

(** ** The menu pulse *)

Lemma breath_frame_one_colour (E : env) (t : float) (c : color)
    (speed minf maxf : float) (cols : frame) :
  breath_frame E t c speed minf maxf = Ok cols -> one_colour c cols.
Proof.
  destruct c as [[[b g] r] br]. unfold breath_frame, one_colour. intros H.
  res_inv H. injection H as <-. eexists. split; [apply _clamp_range | reflexivity].
Qed.

Lemma pulse_loop_runs (E : env) (base : color) (t0 seconds : float) (k : nat) :
  forall (fuel : nat) (s : daemon) (frames : list frame),
    pulse_checks E t0 seconds (clock_reads s) k = true ->
    (monotonic E (clock_reads s + 2 * k) - t0 <? seconds)%float = false ->
    mapR (fun t => breath_frame E t base 1.0 0.3 0.9)
      (pulse_times E (clock_reads s) k) = Ok frames ->
    (k < fuel)%nat ->
    fst (pulse_loop fuel E base t0 seconds s) = Ok tt
    /\ written (snd (pulse_loop fuel E base t0 seconds s))
       = written s ++ map encode frames
    /\ clock_reads (snd (pulse_loop fuel E base t0 seconds s))
       = (clock_reads s + 2 * k + 1)%nat.
Proof.
  induction k as [|k IH]; intros fuel s frames Hchecks Hstop Hframes Hfuel;
    (destruct fuel as [|fuel]; [lia|]).
  - assert (Heq : pulse_loop (S fuel) E base t0 seconds s = (Ok tt, tick_clock s)).
    { cbn [pulse_loop]. unfold bind, read_clock.
      rewrite Nat.add_0_r in Hstop. rewrite Hstop. reflexivity. }
    rewrite Heq. injection Hframes as <-. simpl. rewrite app_nil_r.
    split; [reflexivity|]. split; [reflexivity | lia].
  - simpl in Hchecks. apply andb_true_iff in Hchecks as [Hcheck Hchecks].
    simpl in Hframes. res_inv Hframes. injection Hframes as <-.
    set (s' := add_written (encode v) (tick_clock (tick_clock s))).
    assert (Heq : pulse_loop (S fuel) E base t0 seconds s
                  = pulse_loop fuel E base t0 seconds s').
    { cbn [pulse_loop]. unfold bind, read_clock, liftR. rewrite Hcheck.
      simpl clock_reads. rewrite Hv, send_colors_encode. reflexivity. }
    rewrite Heq.
    destruct (IH fuel s' v0) as (Hr & Hw & Hc).
    + exact Hchecks.
    + simpl clock_reads. rewrite <- Hstop. do 3 f_equal. lia.
    + exact Hv0.
    + lia.
    + split; [exact Hr|]. split.
      * rewrite Hw. simpl. rewrite <- app_assoc. reflexivity.
      * rewrite Hc. simpl. lia.
Qed.

(** X23. The menu pulse. When the clock stays within [seconds] of the
    start for the first [k] tests of the loop and not for the next one,
    and no frame raises, [anim_menu_pulse] returns after exactly [k]
    frames: the breath frames of the base colour at the clock readings
    between the tests, every one of them the base colour on all LEDs at
    one brightness. The clock is read [2 k + 2] times. *)
Theorem menu_pulse_frames (fuel k : nat) (E : env) (accent : option color)
    (seconds : float) (s : daemon) (base : color) (frames : list frame) :
  fst (base_color accent s) = Ok base ->
  pulse_checks E (monotonic E (clock_reads s)) seconds (S (clock_reads s)) k = true ->
  (monotonic E (S (clock_reads s) + 2 * k) - monotonic E (clock_reads s)
   <? seconds)%float = false ->
  mapR (fun t => breath_frame E t base 1.0 0.3 0.9)
    (pulse_times E (S (clock_reads s)) k) = Ok frames ->
  (k < fuel)%nat ->
  fst (anim_menu_pulse fuel E accent seconds s) = Ok tt
  /\ written (snd (anim_menu_pulse fuel E accent seconds s))
     = written s ++ map encode frames
  /\ clock_reads (snd (anim_menu_pulse fuel E accent seconds s))
     = (clock_reads s + 2 * k + 2)%nat
  /\ Forall (one_colour base) frames.
Proof.
  intros Hbase Hchecks Hstop Hframes Hfuel.
  assert (Hb : base_color accent s = (Ok base, s)).
  { destruct accent as [a|]; simpl in *.
    - unfold ret in *. simpl in Hbase. congruence.
    - unfold with_cfg in *. simpl in Hbase. congruence. }
  assert (Heq : anim_menu_pulse fuel E accent seconds s
                = pulse_loop fuel E base (monotonic E (clock_reads s)) seconds
                    (tick_clock s)).
  { unfold anim_menu_pulse, bind. rewrite Hb. reflexivity. }
  rewrite Heq.
  destruct (pulse_loop_runs E base (monotonic E (clock_reads s)) seconds k fuel
              (tick_clock s) frames Hchecks Hstop Hframes Hfuel) as (Hr & Hw & Hc).
  split; [exact Hr|]. split; [exact Hw|]. split; [rewrite Hc; simpl; lia|].
  apply mapR_Ok_Forall2 in Hframes.
  clear -Hframes. induction Hframes as [|t cols ts frames Ht _ IH]; constructor.
  - exact (breath_frame_one_colour _ _ _ _ _ _ _ Ht).
  - exact IH.
Qed.

Lemma menu_pulse_frames_witness :
  fst (anim_menu_pulse 2 (env_clock [0; 0.5; 1]%float) (Some (9, 0, 0, 170)) 2 st_fresh)
  = Ok tt
  /\ written (snd (anim_menu_pulse 2 (env_clock [0; 0.5; 1]%float)
                     (Some (9, 0, 0, 170)) 2 st_fresh))
     = written st_fresh ++ map encode [repeat (9, 0, 0, 153) NUM_LEDS]
  /\ clock_reads (snd (anim_menu_pulse 2 (env_clock [0; 0.5; 1]%float)
                         (Some (9, 0, 0, 170)) 2 st_fresh))
     = (clock_reads st_fresh + 2 * 1 + 2)%nat
  /\ Forall (one_colour (9, 0, 0, 170)) [repeat (9, 0, 0, 153) NUM_LEDS].
Proof.
  apply (menu_pulse_frames 2 1 (env_clock [0; 0.5; 1]%float) (Some (9, 0, 0, 170)) 2
           st_fresh (9, 0, 0, 170) [repeat (9, 0, 0, 153) NUM_LEDS]).
  - reflexivity.
  - vm_compute. reflexivity.
  - vm_compute. reflexivity.
  - vm_compute. reflexivity.
  - lia.
Defined.
